(** * The slicing worker: job pipeline of [server.js] and helpers of [lib]

    A shallow embedding of the message pipeline ([processMessage] and the
    stage functions it chains), of the status writer ([updateState]) and of
    the file helpers ([parseUrl], [removeFiles]).

    Promises are modelled as state transformers that settle ([Resolve] or
    [Reject]); [.then] and [.catch] are the two binds.  Every call that
    leaves the process (document store, object storage, child process, file
    system, queue module) is recorded, in the order the calls are issued, in
    the [trace] of the state; what the outside answers is read from a
    [World].  The message object is one shared, mutated object: it lives in
    the state and every stage reads and writes that single copy. *)

From Stdlib Require Import ZArith QArith.QArith_base.
From stdpp Require Import base gmap strings list.

Local Open Scope Z_scope.
Local Open Scope string_scope.
Local Open Scope list_scope.

(** ** JavaScript values, errors, settled promises *)

(** The values a message property can hold here: a string, or [undefined]. *)
Inductive JsVal : Type :=
| JUndefined
| JString (s : string).

(** What a template literal prints for a value. *)
Definition to_text (v : JsVal) : string :=
  match v with
  | JUndefined => "undefined"
  | JString s => s
  end.

(** [new Error(message)].  Every rejection reason is taken to be an
    [Error] object; the code reads nothing of it but [message]. *)
Inductive JsError : Type :=
| Error (message : string).

Definition message (e : JsError) : string :=
  match e with Error m => m end.

Inductive Settled (A : Type) : Type :=
| Resolve (a : A)
| Reject (e : JsError).
Arguments Resolve {A} a.
Arguments Reject {A} e.

(** [[elapsed, startedAt, endedAt]], times in milliseconds. *)
Definition Triple : Type := (Z * Z * Z)%type.

Definition elapsed (t : Triple) : Z := t.1.1.

(** The message object: its string-keyed properties, and the three duration
    arrays [processMessage] attaches (kept apart from [fields]; no code path
    looks them up by name). *)
Record Msg : Type := {
  fields : gmap string JsVal;
  download_time : Triple;
  upload_time : Triple;
  slicing_time : Triple
}.

(** [msg[k]] *)
Definition prop (m : Msg) (k : string) : JsVal :=
  default JUndefined (fields m !! k).

(** [k in msg] *)
Definition has_prop (m : Msg) (k : string) : bool :=
  bool_decide (is_Some (fields m !! k)).

(** [msg[k] = v] *)
Definition set_prop (k : string) (v : JsVal) (m : Msg) : Msg :=
  {| fields := <[k := v]> (fields m);
     download_time := download_time m;
     upload_time := upload_time m;
     slicing_time := slicing_time m |}.

Definition set_download_time (t : Triple) (m : Msg) : Msg :=
  {| fields := fields m; download_time := t;
     upload_time := upload_time m; slicing_time := slicing_time m |}.

Definition set_upload_time (t : Triple) (m : Msg) : Msg :=
  {| fields := fields m; download_time := download_time m;
     upload_time := t; slicing_time := slicing_time m |}.

Definition set_slicing_time (t : Triple) (m : Msg) : Msg :=
  {| fields := fields m; download_time := download_time m;
     upload_time := upload_time m; slicing_time := t |}.

(** ** The status document and the calls that leave the process *)

(** The [$set] document [updateState] sends. *)
Record StatusOp : Type := {
  status : Z;
  jobID : JsVal;
  progress : string;
  progressDetail : string;
  downloadTime : Triple;
  uploadTime : Triple;
  slicingTime : Triple;
  gcode_file : JsVal
}.

(** The [$inc] document of a stats upsert; [None] is a field left out. *)
Record StatsInc : Type := {
  slicing_succeeded : option Z;
  slicing_failed : option Z;
  slicing_canceled : option Z;
  slicing_seconds : option Q
}.

Inductive Event : Type :=
| EPrintJobUpdate (oid : JsVal) (op : StatusOp)
| EStatsUpdate (id : Z) (inc : StatsInc)
| EDownloadObject (job_id bucket key local : JsVal)
| EUploadFile (job_id local bucket key : JsVal)
| EExec (cmd : string)
| EUnlink (file : JsVal)
| ETrackMessage (handle : JsVal)
| ERunningProcessesInc (n : Z)
| ERemoveMessage (handle : JsVal)
| ERequeueMessage (handle : JsVal).

(** What [PrintJob.update(..).exec()] settles to: a result whose [n] is the
    number of matched rows ([None]: no result object, or no [n] in it), or a
    rejection. *)
Inductive UpdateOutcome : Type :=
| UpdateResult (n : option Z)
| UpdateError (e : JsError).

(** [path.parse] output. *)
Record ParsedPath : Type := {
  p_root : string;
  p_dir : string;
  p_base : string;
  p_ext : string;
  p_name : string
}.

(** The answers of everything outside the two source files, each a
    function of the arguments of the call.  [None] in an [option JsError] is
    success. *)
Record World : Type := {
  (** [mongoose.Types.ObjectId(v)]; [None] when the constructor throws. *)
  ObjectId : JsVal -> option JsVal;
  PrintJob_update : JsVal -> StatusOp -> UpdateOutcome;
  s3_downloadObject : JsVal -> JsVal -> JsVal -> JsVal -> option JsError;
  (** when both downloads reject, whether the STL one rejects first *)
  stl_rejects_first : bool;
  s3_uploadFile : JsVal -> JsVal -> JsVal -> JsVal -> option JsError;
  child_exec : string -> option JsError;
  fs_unlink : JsVal -> option JsError;
  (** [URL.parse(s, false).pathname]; [None] when it is [null] *)
  URL_pathname : string -> option string;
  path_parse : string -> ParsedPath;
  path_format : ParsedPath -> string;
  (** the n-th draw of [rs.alphaNumMixed(20)] *)
  alphaNumMixed : nat -> string;
  (** the n-th reading of [new Date()], in milliseconds *)
  Date_now : nat -> Z;
  (** the compiled command template, applied to config, stl, gcode *)
  CuraTemplate : JsVal -> JsVal -> JsVal -> string;
  workDir : string
}.

(** ** Process state *)

Record St : Type := {
  msg : Msg;
  trace : list Event;
  jobsSucceeded : Z;
  jobsFailed : Z;
  jobsFailedSlicing : Z;
  jobsCanceled : Z;
  (** seconds, as exact rationals (the rounding of doubles is not modelled) *)
  totalSlicingTime : Q;
  clock : nat;
  draws : nat
}.

Definition with_msg (f : Msg -> Msg) (s : St) : St :=
  {| msg := f (msg s); trace := trace s;
     jobsSucceeded := jobsSucceeded s; jobsFailed := jobsFailed s;
     jobsFailedSlicing := jobsFailedSlicing s; jobsCanceled := jobsCanceled s;
     totalSlicingTime := totalSlicingTime s;
     clock := clock s; draws := draws s |}.

Definition emit (e : Event) (s : St) : St :=
  {| msg := msg s; trace := trace s ++ [e];
     jobsSucceeded := jobsSucceeded s; jobsFailed := jobsFailed s;
     jobsFailedSlicing := jobsFailedSlicing s; jobsCanceled := jobsCanceled s;
     totalSlicingTime := totalSlicingTime s;
     clock := clock s; draws := draws s |}.

Definition tick (s : St) : St :=
  {| msg := msg s; trace := trace s;
     jobsSucceeded := jobsSucceeded s; jobsFailed := jobsFailed s;
     jobsFailedSlicing := jobsFailedSlicing s; jobsCanceled := jobsCanceled s;
     totalSlicingTime := totalSlicingTime s;
     clock := S (clock s); draws := draws s |}.

Definition draw (s : St) : St :=
  {| msg := msg s; trace := trace s;
     jobsSucceeded := jobsSucceeded s; jobsFailed := jobsFailed s;
     jobsFailedSlicing := jobsFailedSlicing s; jobsCanceled := jobsCanceled s;
     totalSlicingTime := totalSlicingTime s;
     clock := clock s; draws := S (draws s) |}.

Definition bump_succeeded (s : St) : St :=
  {| msg := msg s; trace := trace s;
     jobsSucceeded := jobsSucceeded s + 1; jobsFailed := jobsFailed s;
     jobsFailedSlicing := jobsFailedSlicing s; jobsCanceled := jobsCanceled s;
     totalSlicingTime := totalSlicingTime s;
     clock := clock s; draws := draws s |}.

Definition bump_failed (s : St) : St :=
  {| msg := msg s; trace := trace s;
     jobsSucceeded := jobsSucceeded s; jobsFailed := jobsFailed s + 1;
     jobsFailedSlicing := jobsFailedSlicing s; jobsCanceled := jobsCanceled s;
     totalSlicingTime := totalSlicingTime s;
     clock := clock s; draws := draws s |}.

Definition bump_failed_slicing (s : St) : St :=
  {| msg := msg s; trace := trace s;
     jobsSucceeded := jobsSucceeded s; jobsFailed := jobsFailed s;
     jobsFailedSlicing := jobsFailedSlicing s + 1; jobsCanceled := jobsCanceled s;
     totalSlicingTime := totalSlicingTime s;
     clock := clock s; draws := draws s |}.

Definition bump_canceled (s : St) : St :=
  {| msg := msg s; trace := trace s;
     jobsSucceeded := jobsSucceeded s; jobsFailed := jobsFailed s;
     jobsFailedSlicing := jobsFailedSlicing s; jobsCanceled := jobsCanceled s + 1;
     totalSlicingTime := totalSlicingTime s;
     clock := clock s; draws := draws s |}.

(** [totalSlicingTime += ms / 1000.0] *)
Definition add_slicing_seconds (ms : Z) (s : St) : St :=
  {| msg := msg s; trace := trace s;
     jobsSucceeded := jobsSucceeded s; jobsFailed := jobsFailed s;
     jobsFailedSlicing := jobsFailedSlicing s; jobsCanceled := jobsCanceled s;
     totalSlicingTime := Qplus (totalSlicingTime s) (Qmake ms 1000);
     clock := clock s; draws := draws s |}.

(** ** Promises *)

Definition Promise (A : Type) : Type := St -> Settled A * St.

Definition resolve {A} (a : A) : Promise A := fun s => (Resolve a, s).
Definition reject {A} (e : JsError) : Promise A := fun s => (Reject e, s).

(** [p.then(f)] *)
Definition then_ {A B} (p : Promise A) (f : A -> Promise B) : Promise B :=
  fun s =>
    match p s with
    | (Resolve a, s') => f a s'
    | (Reject e, s') => (Reject e, s')
    end.

(** [p.catch(h)] *)
Definition catch_ {A} (p : Promise A) (h : JsError -> Promise A) : Promise A :=
  fun s =>
    match p s with
    | (Resolve a, s') => (Resolve a, s')
    | (Reject e, s') => h e s'
    end.

(** A promise that is started and not waited for: the calls it issues are
    issued now, how it settles is dropped. *)
Definition detached {A} (p : Promise A) : Promise unit :=
  fun s => (Resolve tt, (p s).2).

Notation "p >>= f" := (then_ p f) (at level 50, left associativity).
Notation "p >> q" := (then_ p (fun _ => q)) (at level 50, left associativity).

(** ** [lib]: file and URL helpers *)

Module lib.
Section WithWorld.
Variable w : World.

(** [unique()]: one draw of the random-string generator. *)
Definition unique : St -> string * St :=
  fun s => (alphaNumMixed w (draws s), draw s).

(** [s.split('/')] *)
Fixpoint split_slash (s : string) : list string :=
  match s with
  | EmptyString => [EmptyString]
  | String c r =>
      if Ascii.eqb c (Ascii.ascii_of_nat 47) then EmptyString :: split_slash r
      else match split_slash r with
           | h :: t => String c h :: t
           | [] => [String c EmptyString]
           end
  end.

(** [a[i]] on an array of strings *)
Definition at_index (l : list string) (i : nat) : JsVal :=
  match l !! i with
  | Some x => JString x
  | None => JUndefined
  end.

(** [ld.isEmpty] on a string *)
Definition isEmpty (k : string) : bool := String.eqb k EmptyString.

(** [parseUrl(msg, workingDir, key)] on the shared message; [Some e] is the
    exception thrown.  ([ld.isEmpty(msg)] is false for every message of this
    model: the duration arrays are own properties of it.) *)
Definition parseUrl (workingDir key : string) : St -> option JsError * St :=
  fun s =>
    if isEmpty key then
      (Some (Error "parseUrl called with invalid arguments"), s)
    else
      let keyUrl := key +:+ "_file" in
      if negb (has_prop (msg s) keyUrl) then
        (Some (Error ("parseUrl called with msg object lacking the property "
                      +:+ keyUrl)), s)
      else
        match prop (msg s) keyUrl with
        | JUndefined => (Some (Error "TypeError"), s)
        | JString url =>
            match URL_pathname w url with
            | None => (Some (Error "TypeError"), s)
            | Some pathname =>
                let p := path_parse w pathname in
                let parts := split_slash (p_dir p) in
                let s1 := with_msg (set_prop (key +:+ "_bucket")
                                             (at_index parts 1)) s in
                let p' := {| p_root := p_root p;
                             p_dir := String.concat "/" (drop 2 parts);
                             p_base := p_base p; p_ext := p_ext p;
                             p_name := p_name p |} in
                let s2 := with_msg (set_prop (key +:+ "_key")
                                             (JString (path_format w p'))) s1 in
                let (u, s3) := unique s2 in
                (None,
                 with_msg (set_prop (key +:+ "_local")
                             (JString (workingDir +:+ "/" +:+ u +:+ "-"
                                       +:+ p_base p))) s3)
            end
        end.

(** The promisified [fs.unlink]. *)
Definition unlink (file : JsVal) : Promise unit :=
  fun s =>
    match fs_unlink w file with
    | None => (Resolve tt, emit (EUnlink file) s)
    | Some e => (Reject e, emit (EUnlink file) s)
    end.

(** The second argument of [removeFiles]: nothing ([undefined] or [null]),
    a string, an array, or some other truthy value. *)
Inductive FilesArg : Type :=
| FilesNothing
| FilesString (s : string)
| FilesArray (l : list JsVal)
| FilesOther.

(** The loop that starts one [unlink] per file and collects the promises. *)
Fixpoint unlink_each (files : list JsVal) (s : St) : list (Settled unit) * St :=
  match files with
  | [] => ([], s)
  | f :: rest =>
      let (r, s1) := unlink f s in
      let (rs, s2) := unlink_each rest s1 in
      (r :: rs, s2)
  end.

(** [Promise.all] over promises already started.  With several rejections
    the one reported is the first to happen; the list order stands for it. *)
Fixpoint Promise_all (rs : list (Settled unit)) : Promise unit :=
  match rs with
  | [] => resolve tt
  | Resolve _ :: rest => Promise_all rest
  | Reject e :: _ => reject e
  end.

(** [removeFiles(logid, files)]; [logid] only goes to the log. *)
Definition removeFiles (logid : JsVal) (files : FilesArg) : Promise unit :=
  match files with
  | FilesNothing => resolve tt
  | FilesString f =>
      if isEmpty f then resolve tt else unlink (JString f)
  | FilesOther =>
      reject (Error "removeFiles() called with invalid arguments")
  | FilesArray [] => resolve tt
  | FilesArray [f] =>
      catch_ (unlink f >> resolve tt) (fun _ => resolve tt)
  | FilesArray fs =>
      fun s =>
        let (rs, s') := unlink_each fs s in
        catch_ (Promise_all rs >> resolve tt) (fun _ => resolve tt) s'
  end.

(** [roundHour()] applied to a clock reading (minutes, seconds and
    milliseconds cleared; local time is taken a whole number of hours from
    UTC). *)
Definition roundHour (now : Z) : Z := now - now mod 3600000.

(** Object ids of the stats documents are represented by the seconds their
    first four bytes hold; the remaining bytes are zero in both. *)
Definition objectIdTimeZero : Z := 0.

(** [objectIdFromTimeStamp()] without argument: reads the clock. *)
Definition objectIdFromTimeStamp : St -> Z * St :=
  fun s => (roundHour (Date_now w (clock s)) / 1000, tick s).

End WithWorld.
End lib.

(** ** [server.js]: status writer and job pipeline *)

Module server.
Section WithWorld.
Variable w : World.

(** Each inbound message must have these fields. *)
Definition mustHave : list string :=
  ["config_file"; "gcode_file"; "handle"; "job_id"; "job_oid"; "stl_file"].

Definition STATE_WAITING : Z := 0.
Definition STATE_PRE : Z := 1.
Definition STATE_RUN : Z := 2.
Definition STATE_POST : Z := 3.
Definition STATE_DONE : Z := 4.
Definition STATE_FAIL : Z := -1.
Definition STATE_ERR : Z := -2.

(** The third argument of [updateState] as the call sites pass it: left
    out, an [Error] object, or a plain string. *)
Inductive ErrArg : Type :=
| ErrAbsent
| ErrObject (e : JsError)
| ErrText (s : string).

(** [err.message]: the message of an [Error]; [undefined] on a string,
    which has no such property; [None] is the [TypeError] of reading a
    property of [undefined]. *)
Definition err_message (err : ErrArg) : option JsVal :=
  match err with
  | ErrAbsent => None
  | ErrObject e => Some (JString (message e))
  | ErrText _ => Some JUndefined
  end.

(** The [switch] of [updateState]: the state finally written, the label
    and the detail. *)
Definition describe (state : Z) (err : ErrArg) : option (Z * string * string) :=
  if Z.eqb state STATE_WAITING then
    Some (state, "Waiting to slice",
          "Waiting in the slicing queue for the model to be sliced")
  else if Z.eqb state STATE_FAIL then
    Some (state, "Cannot slice",
          "The model cannot be sliced; something is incorrect with the STL file")
  else if Z.eqb state STATE_ERR then
    match err_message err with
    | Some v => Some (state, "Error", "Error; " +:+ to_text v)
    | None => None
    end
  else if Z.eqb state STATE_PRE then
    Some (state, "Preparing slicer",
          "Preparing to slice the model; downloading the STL file and slicing options")
  else if Z.eqb state STATE_RUN then
    Some (state, "Slicing", "Slicing the model")
  else if Z.eqb state STATE_POST then
    Some (state, "Saving sliced model",
          "Slicing completed; uploading the printing instructions for retrieval by the printer")
  else if Z.eqb state STATE_DONE then
    Some (state, "Slicing completed",
          "Slicing process finished; model is ready to print")
  else
    Some (STATE_ERR, "Unknown", "Unknown state").

(** The [$set] document built from the message as it is at the call. *)
Definition status_op (m : Msg) (state : Z) (txt detail : string) : StatusOp :=
  {| status := state;
     jobID := prop m "job_id";
     progress := txt;
     progressDetail := detail;
     downloadTime := download_time m;
     uploadTime := upload_time m;
     slicingTime := slicing_time m;
     gcode_file := if Z.eqb state STATE_DONE then prop m "gcode_file"
                   else JString "waiting" |}.

(** [PrintJob.update({_id: oid}, op).exec()] *)
Definition PrintJob_update_exec (oid : JsVal) (op : StatusOp) : Promise (option Z) :=
  fun s =>
    match PrintJob_update w oid op with
    | UpdateResult n => (Resolve n, emit (EPrintJobUpdate oid op) s)
    | UpdateError e => (Reject e, emit (EPrintJobUpdate oid op) s)
    end.

(** [result && result.n === 0] *)
Definition no_row_matched (n : option Z) : bool :=
  match n with
  | Some k => Z.eqb k 0
  | None => false
  end.

(** [updateState(msg, state, err)] on the shared message.  Reading
    [err.message] of a missing [err] in the [STATE_ERR] case is a
    [TypeError]; no call site leaves [err] out there. *)
Definition updateState (state : Z) (err : ErrArg) : Promise unit :=
  fun s =>
    match describe state err with
    | None => (Reject (Error "TypeError"), s)
    | Some (state', txt, detail) =>
        let op := status_op (msg s) state' txt detail in
        catch_
          (PrintJob_update_exec (prop (msg s) "job_oid") op >>= fun result =>
             if no_row_matched result then reject (Error "CANCELED")
             else resolve tt)
          (fun e =>
             if String.eqb (message e) "CANCELED"
                || String.eqb (message e) "SLICER"
             then reject e
             else resolve tt)
          s
    end.

(** [new Date()] *)
Definition new_Date : St -> Z * St :=
  fun s => (Date_now w (clock s), tick s).

(** [t[1] = now] *)
Definition started (now : Z) (t : Triple) : Triple :=
  (t.1.1, now, t.2).

(** [t[2] = now; t[0] = t[2] - t[1]] *)
Definition ended (now : Z) (t : Triple) : Triple :=
  (now - t.1.2, t.1.2, now).

Definition downloadObject (job_id bucket key local : JsVal) : Promise unit :=
  fun s =>
    let s' := emit (EDownloadObject job_id bucket key local) s in
    match s3_downloadObject w job_id bucket key local with
    | None => (Resolve tt, s')
    | Some e => (Reject e, s')
    end.

(** [Promise.join] of the two downloads, both already started. *)
Definition Promise_join (stl config : Settled unit) : Promise unit :=
  match stl, config with
  | Resolve _, Resolve _ => resolve tt
  | Reject e, Resolve _ => reject e
  | Resolve _, Reject e => reject e
  | Reject e1, Reject e2 =>
      if stl_rejects_first w then reject e1 else reject e2
  end.

(** [downloadFiles(msg)] *)
Definition downloadFiles : Promise unit :=
  updateState STATE_PRE ErrAbsent >>= fun _ s =>
    let (t1, s1) := new_Date s in
    let s2 := with_msg (fun m => set_download_time (started t1 (download_time m)) m) s1 in
    let m := msg s2 in
    let (a, s3) := downloadObject (prop m "job_id") (prop m "stl_bucket")
                     (prop m "stl_key") (prop m "stl_local") s2 in
    let (b, s4) := downloadObject (prop m "job_id") (prop m "config_bucket")
                     (prop m "config_key") (prop m "config_local") s3 in
    (Promise_join a b >>= fun _ s5 =>
       let (t2, s6) := new_Date s5 in
       (Resolve tt,
        with_msg (fun m => set_download_time (ended t2 (download_time m)) m) s6))
      s4.

(** [exec(cmd)] of child-process-promise *)
Definition exec (cmd : string) : Promise unit :=
  fun s =>
    let s' := emit (EExec cmd) s in
    match child_exec w cmd with
    | None => (Resolve tt, s')
    | Some e => (Reject e, s')
    end.

(** [spawnSlicer(msg)] *)
Definition spawnSlicer : Promise unit :=
  updateState STATE_RUN ErrAbsent >>= fun _ s =>
    let m := msg s in
    let cmd := CuraTemplate w (prop m "config_local") (prop m "stl_local")
                 (prop m "gcode_local") in
    let (t1, s1) := new_Date s in
    let s2 := with_msg (fun m => set_slicing_time (started t1 (slicing_time m)) m) s1 in
    catch_
      (exec cmd >>= fun _ s3 =>
         let (t2, s4) := new_Date s3 in
         let s5 := with_msg (fun m => set_slicing_time (ended t2 (slicing_time m)) m) s4 in
         (Resolve tt, add_slicing_seconds (elapsed (slicing_time (msg s5))) s5))
      (fun _ => reject (Error "SLICER"))
      s2.

Definition s3_upload (job_id local bucket key : JsVal) : Promise unit :=
  fun s =>
    let s' := emit (EUploadFile job_id local bucket key) s in
    match s3_uploadFile w job_id local bucket key with
    | None => (Resolve tt, s')
    | Some e => (Reject e, s')
    end.

(** [uploadFile(msg)] *)
Definition uploadFile : Promise unit :=
  updateState STATE_POST ErrAbsent >>= fun _ s =>
    let (t1, s1) := new_Date s in
    let s2 := with_msg (fun m => set_upload_time (started t1 (upload_time m)) m) s1 in
    let m := msg s2 in
    (s3_upload (prop m "job_id") (prop m "gcode_local") (prop m "gcode_bucket")
       (prop m "gcode_key") >>= fun _ s3 =>
       let (t2, s4) := new_Date s3 in
       (Resolve tt,
        with_msg (fun m => set_upload_time (ended t2 (upload_time m)) m) s4))
      s2.

(** The three local files of the message, as passed to [removeFiles]. *)
Definition local_files (m : Msg) : lib.FilesArg :=
  lib.FilesArray [prop m "stl_local"; prop m "config_local"; prop m "gcode_local"].

(** [cleanFiles(msg)] *)
Definition cleanFiles : Promise unit :=
  fun s =>
    (lib.removeFiles w (prop (msg s) "job_id") (local_files (msg s))
       >>= fun _ => resolve tt) s.

(** [queue.removeMessage(msg)] and [queue.requeueMessage(msg)]: the queue
    module is addressed by the message handle. *)
Definition queue_removeMessage : Promise unit :=
  fun s => (Resolve tt, emit (ERemoveMessage (prop (msg s) "handle")) s).

Definition queue_requeueMessage : Promise unit :=
  fun s => (Resolve tt, emit (ERequeueMessage (prop (msg s) "handle")) s).

(** [notifyDone(msg)] *)
Definition notifyDone : Promise unit :=
  updateState STATE_DONE ErrAbsent >>= fun _ =>
    queue_removeMessage >>= fun _ => resolve tt.

(** How a call of [processMessage] ends: by an exception, or by returning
    a promise (given with how it settles). *)
Inductive Completion : Type :=
| Threw
| Returned (r : Settled unit).

(** [ld.cloneDeep(msg)] of the raw message, with the fresh duration arrays
    [[0, 0, 0]]. *)
Definition cloneDeep (raw : gmap string string) : Msg :=
  {| fields := JString <$> raw;
     download_time := (0, 0, 0);
     upload_time := (0, 0, 0);
     slicing_time := (0, 0, 0) |}.

(** The [for] loop over [mustHave]: the first name not [in msg]. *)
Fixpoint first_missing (names : list string) (m : Msg) : option string :=
  match names with
  | [] => None
  | k :: rest => if has_prop m k then first_missing rest m else Some k
  end.

(** The rejection of a request: [updateState(msg, STATE_ERR, text)
    .then(queue.removeMessage).catch(..)]; the text is passed as a string. *)
Definition reject_request (text : string) : Promise unit :=
  catch_
    (updateState STATE_ERR (ErrText text) >>= fun _ => queue_removeMessage)
    (fun _ => resolve tt).

(** The [try] block of the three [parseUrl] calls. *)
Definition parse_urls : St -> option JsError * St :=
  fun s =>
    match lib.parseUrl w (workDir w) "stl" s with
    | (Some e, s1) => (Some e, s1)
    | (None, s1) =>
        match lib.parseUrl w (workDir w) "config" s1 with
        | (Some e, s2) => (Some e, s2)
        | (None, s2) => lib.parseUrl w (workDir w) "gcode" s2
        end
    end.

(** [Stats.update({_id: id}, {$inc: inc}, {upsert: true, ..}).exec()],
    never waited for. *)
Definition Stats_update (id : Z) (inc : StatsInc) : St -> St :=
  emit (EStatsUpdate id inc).

(** The [.then] handler after [cleanFiles]: hourly stats, lifetime stats,
    [jobsSucceeded += 1]. *)
Definition record_success : Promise unit :=
  fun s =>
    let (hour, s1) := lib.objectIdFromTimeStamp w s in
    let inc := {| slicing_succeeded := Some 1; slicing_failed := None;
                  slicing_canceled := None;
                  slicing_seconds :=
                    Some (Qmake (elapsed (slicing_time (msg s1))) 1000) |} in
    let s2 := Stats_update hour inc s1 in
    let s3 := Stats_update lib.objectIdTimeZero inc s2 in
    (Resolve tt, bump_succeeded s3).

(** The final [.catch] handler of the pipeline. *)
Definition on_failure (err : JsError) : Promise unit :=
  fun s =>
    let '(requeue, s1) :=
      if String.eqb (message err) "CANCELED" then
        let s1 := bump_canceled s in
        let (hour, s2) := lib.objectIdFromTimeStamp w s1 in
        (false,
         Stats_update hour
           {| slicing_succeeded := None; slicing_failed := None;
              slicing_canceled := Some 1; slicing_seconds := None |} s2)
      else if String.eqb (message err) "SLICER" then
        let s1 := bump_failed_slicing s in
        let (hour, s2) := lib.objectIdFromTimeStamp w s1 in
        let s3 := Stats_update hour
                    {| slicing_succeeded := None; slicing_failed := Some 1;
                       slicing_canceled := None; slicing_seconds := None |} s2 in
        (false, (detached (updateState STATE_FAIL ErrAbsent) s3).2)
      else
        let s1 := bump_failed s in
        (true, (detached (updateState STATE_ERR (ErrObject err)) s1).2)
    in
    let s2 := (detached (lib.removeFiles w (prop (msg s1) "job_id")
                           (local_files (msg s1))) s1).2 in
    if requeue : bool then queue_requeueMessage s2
    else queue_removeMessage s2.

(** The promise chain of a tracked message. *)
Definition pipeline : Promise unit :=
  catch_
    (downloadFiles >>= (fun _ => spawnSlicer) >>= (fun _ => uploadFile)
       >>= (fun _ => notifyDone) >>= (fun _ => cleanFiles)
       >>= (fun _ => record_success))
    on_failure.

Definition returned (r : Settled unit * St) : Completion * St :=
  (Returned r.1, r.2).

(** [processMessage(err, msg)]; the first argument is never read. *)
Definition processMessage (raw : gmap string string) : St -> Completion * St :=
  fun s0 =>
    let m0 := cloneDeep raw in
    match ObjectId w (prop m0 "job_oid") with
    | None => (Threw, with_msg (fun _ => m0) s0)
    | Some oid =>
        let s := with_msg (fun _ => set_prop "job_oid" oid m0) s0 in
        match first_missing mustHave (msg s) with
        | Some k =>
            returned
              (reject_request
                 ("Programming error; slicing request is missing the required parameter "
                  +:+ k) s)
        | None =>
            match parse_urls s with
            | (Some e, s1) =>
                returned
                  (reject_request
                     ("Programming error; invalid data; cannot parse URL; err = "
                      +:+ message e) s1)
            | (None, s1) =>
                let s2 := emit (ETrackMessage (prop (msg s1) "handle")) s1 in
                let s3 := emit (ERunningProcessesInc 1) s2 in
                returned (pipeline s3)
            end
        end
    end.

End WithWorld.
End server.

(** ** Reading a trace *)

(** What kind of call an event is; a status write keeps the state code. *)
Inductive Kind : Type :=
| KTrack
| KRunning
| KStatus (state : Z)
| KDownload
| KExec
| KUpload
| KRemove
| KRequeue
| KUnlink
| KStats.

Definition kind_of (e : Event) : Kind :=
  match e with
  | EPrintJobUpdate _ op => KStatus (status op)
  | EStatsUpdate _ _ => KStats
  | EDownloadObject _ _ _ _ => KDownload
  | EUploadFile _ _ _ _ => KUpload
  | EExec _ => KExec
  | EUnlink _ => KUnlink
  | ETrackMessage _ => KTrack
  | ERunningProcessesInc _ => KRunning
  | ERemoveMessage _ => KRemove
  | ERequeueMessage _ => KRequeue
  end.

(** The state codes written to the status document, in order. *)
Definition status_writes (t : list Event) : list Z :=
  omap (fun e => match e with
                 | EPrintJobUpdate _ op => Some (status op)
                 | _ => None
                 end) t.

(** The stats upserts, in order. *)
Definition stats_writes (t : list Event) : list (Z * StatsInc) :=
  omap (fun e => match e with
                 | EStatsUpdate id inc => Some (id, inc)
                 | _ => None
                 end) t.

(** Calls a stage makes while it works: status write, transfer, slicer. *)
Definition is_stage_call (e : Event) : bool :=
  match e with
  | EPrintJobUpdate _ _ | EDownloadObject _ _ _ _
  | EUploadFile _ _ _ _ | EExec _ => true
  | _ => false
  end.

(** How a status write settles, read off [updateState]'s two handlers. *)
Definition write_settles (out : UpdateOutcome) : Settled unit :=
  match out with
  | UpdateResult n =>
      if server.no_row_matched n then Reject (Error "CANCELED") else Resolve tt
  | UpdateError e =>
      if String.eqb (message e) "CANCELED" || String.eqb (message e) "SLICER"
      then Reject e else Resolve tt
  end.

(** The four job counters are the same in two states. *)
Definition same_counts (s s' : St) : Prop :=
  jobsSucceeded s' = jobsSucceeded s ∧ jobsFailed s' = jobsFailed s ∧
  jobsFailedSlicing s' = jobsFailedSlicing s ∧ jobsCanceled s' = jobsCanceled s.

(** A message is tracked when [processMessage] reaches
    [queue.trackMessage]: the object id is built, no required field is
    missing and the three URLs parse.  [s3] is the state in which the
    promise chain starts. *)
Definition tracked (w : World) (raw : gmap string string) (s0 s3 : St) : Prop :=
  ∃ oid s1,
    ObjectId w (prop (server.cloneDeep raw) "job_oid") = Some oid ∧
    server.first_missing server.mustHave
      (set_prop "job_oid" oid (server.cloneDeep raw)) = None ∧
    server.parse_urls w
      (with_msg (fun _ => set_prop "job_oid" oid (server.cloneDeep raw)) s0)
      = (None, s1) ∧
    s3 = emit (ERunningProcessesInc 1)
           (emit (ETrackMessage (prop (msg s1) "handle")) s1).

(** The chain of stages before the final [.catch]. *)
Definition stages (w : World) : Promise unit :=
  server.downloadFiles w >>= (fun _ => server.spawnSlicer w)
    >>= (fun _ => server.uploadFile w)
    >>= (fun _ => server.notifyDone w) >>= (fun _ => server.cleanFiles w)
    >>= (fun _ => server.record_success w).

(** The state after one [unlink] call per file has been issued. *)
Definition unlink_all (files : list JsVal) (s : St) : St :=
  foldl (fun s f => emit (EUnlink f) s) s files.

(** The three local file names of the message. *)
Definition locals (m : Msg) : list JsVal :=
  [prop m "stl_local"; prop m "config_local"; prop m "gcode_local"].

(** The stages up to and including the upload. *)
Definition front (w : World) : Promise unit :=
  server.downloadFiles w >>= (fun _ => server.spawnSlicer w)
    >>= (fun _ => server.uploadFile w).

(** The [DONE] write of a message. *)
Definition done_op (m : Msg) : StatusOp :=
  server.status_op m server.STATE_DONE "Slicing completed"
    "Slicing process finished; model is ready to print".

(** The hourly stats id computed from the clock of a state. *)
Definition hour_id (w : World) (s : St) : Z :=
  lib.roundHour (Date_now w (clock s)) / 1000.

(** The [$inc] of a successful job. *)
Definition success_inc (m : Msg) : StatsInc :=
  {| slicing_succeeded := Some 1; slicing_failed := None;
     slicing_canceled := None;
     slicing_seconds := Some (Qmake (elapsed (slicing_time m)) 1000) |}.

Definition canceled_inc : StatsInc :=
  {| slicing_succeeded := None; slicing_failed := None;
     slicing_canceled := Some 1; slicing_seconds := None |}.

Definition failed_inc : StatsInc :=
  {| slicing_succeeded := None; slicing_failed := Some 1;
     slicing_canceled := None; slicing_seconds := None |}.

(** The calls issued after the upload when the [DONE] write does not
    reject, in order. *)
Definition success_tail (w : World) (s : St) : list Event :=
  [EPrintJobUpdate (prop (msg s) "job_oid") (done_op (msg s));
   ERemoveMessage (prop (msg s) "handle")]
  ++ map EUnlink (locals (msg s))
  ++ [EStatsUpdate (hour_id w s) (success_inc (msg s));
      EStatsUpdate lib.objectIdTimeZero (success_inc (msg s))].

(** The state in which a job whose [DONE] write did not reject ends:
    message removed, local files unlinked, success recorded. *)
Definition finished (w : World) (s : St) : St :=
  (server.record_success w
     (unlink_all (locals (msg s))
        (emit (ERemoveMessage (prop (msg s) "handle"))
           (emit (EPrintJobUpdate (prop (msg s) "job_oid") (done_op (msg s)))
              s)))).2.

(** The [FAILED] and [ERRORED] writes of a message. *)
Definition fail_op (m : Msg) : StatusOp :=
  server.status_op m server.STATE_FAIL "Cannot slice"
    "The model cannot be sliced; something is incorrect with the STL file".

Definition err_op (m : Msg) (text : JsVal) : StatusOp :=
  server.status_op m server.STATE_ERR "Error" ("Error; " +:+ to_text text).

(** One step of the pipeline as seen from outside: the job counters and
    the message properties are untouched, the only calls issued are stage
    calls, and the slicing-seconds total moves only if a slicer call that
    succeeded is among them. *)
Definition stage_step (w : World) (s s' : St) : Prop :=
  same_counts s s' ∧
  fields (msg s') = fields (msg s) ∧
  ∃ evs : list Event,
    trace s' = trace s ++ evs ∧
    Forall (fun e => is_stage_call e = true) evs ∧
    (totalSlicingTime s' = totalSlicingTime s ∨
     ∃ cmd, EExec cmd ∈ evs ∧ child_exec w cmd = None).

(** Every write to the status document with this id goes through and
    matches a row. *)
Definition writes_succeed (w : World) (oid : JsVal) : Prop :=
  ∀ op, ∃ n, PrintJob_update w oid op = UpdateResult n ∧
             server.no_row_matched n = false.

(** Nothing observable happened between two states. *)
Definition quiet (s s' : St) : Prop :=
  trace s' = trace s ∧ same_counts s s' ∧
  totalSlicingTime s' = totalSlicingTime s.

(** The state in which the promise chain of a tracked message starts,
    computed the way [processMessage] reaches it. *)
Definition chain_start (w : World) (raw : gmap string string) (s0 : St) : St :=
  let m0 := server.cloneDeep raw in
  let m := set_prop "job_oid" (default JUndefined (ObjectId w (prop m0 "job_oid"))) m0 in
  let s1 := (server.parse_urls w (with_msg (fun _ => m) s0)).2 in
  emit (ERunningProcessesInc 1) (emit (ETrackMessage (prop (msg s1) "handle")) s1).

(** The state codes among a list of kinds. *)
Definition states_of (ks : list Kind) : list Z :=
  omap (fun k => match k with KStatus z => Some z | _ => None end) ks.

(** The slicer is invoked and exits abnormally: the downloads resolved,
    the [RUNNING] write did not reject, and the command then failed. *)
Definition slicer_fails (w : World) (s3 : St) : Prop :=
  ∃ s4 s5 e,
    server.downloadFiles w s3 = (Resolve tt, s4) ∧
    server.updateState w server.STATE_RUN server.ErrAbsent s4 = (Resolve tt, s5) ∧
    child_exec w (CuraTemplate w (prop (msg s5) "config_local")
                    (prop (msg s5) "stl_local") (prop (msg s5) "gcode_local"))
      = Some e.

Definition is_disposition (e : Event) : bool :=
  match e with
  | ERemoveMessage _ | ERequeueMessage _ => true
  | _ => false
  end.

Definition is_unlink (e : Event) : bool :=
  match e with
  | EUnlink _ => true
  | _ => false
  end.

(** No [unlink] is issued once the queue disposition has been applied. *)
Fixpoint cleanup_first (t : list Event) : bool :=
  match t with
  | [] => true
  | e :: rest =>
      if is_disposition e then forallb (fun x => negb (is_unlink x)) rest
      else cleanup_first rest
  end.

(** ** Scenarios

    Concrete worlds and messages on which the pipeline is run. *)

Module Scenario.

(** The path of [scheme://host/bucket/key...]. *)
Definition pathname_of (url : string) : option string :=
  match lib.split_slash url with
  | _ :: _ :: _ :: rest => Some ("/" +:+ String.concat "/" rest)
  | _ => None
  end.

(** Directory and base name of a path. *)
Definition parse_path (p : string) : ParsedPath :=
  let parts := lib.split_slash p in
  {| p_root := "/";
     p_dir := String.concat "/" (removelast parts);
     p_base := default EmptyString (last parts);
     p_ext := EmptyString;
     p_name := default EmptyString (last parts) |}.

(** A world given by the answers of the document store, the slicer, the
    upload and [unlink]; downloads succeed, the clock advances five seconds
    per reading. *)
Definition world (update : JsVal -> StatusOp -> UpdateOutcome)
    (slicer upload : option JsError) (unlinked : JsVal -> option JsError) : World :=
  {| ObjectId := fun v => match v with
                          | JUndefined => Some (JString "59f1c0ffee59f1c0ffee0001")
                          | JString _ => Some v
                          end;
     PrintJob_update := update;
     s3_downloadObject := fun _ _ _ _ => None;
     stl_rejects_first := true;
     s3_uploadFile := fun _ _ _ _ => upload;
     child_exec := fun _ => slicer;
     fs_unlink := unlinked;
     URL_pathname := pathname_of;
     path_parse := parse_path;
     path_format := fun p => p_dir p +:+ "/" +:+ p_base p;
     alphaNumMixed := fun n => match n with
                               | O => "aaaaaaaaaaaaaaaaaaaa"
                               | S O => "bbbbbbbbbbbbbbbbbbbb"
                               | _ => "cccccccccccccccccccc"
                               end;
     Date_now := fun n => 1509580800000 + Z.of_nat n * 5000;
     CuraTemplate := fun c s g =>
       "/scripts/cura.sh " +:+ to_text c +:+ " " +:+ to_text s +:+ " "
       +:+ to_text g;
     workDir := "/working" |}.

(** The job record exists and every write to it goes through. *)
Definition record_present : JsVal -> StatusOp -> UpdateOutcome :=
  fun _ _ => UpdateResult (Some 1).

(** The job record has been deleted. *)
Definition record_gone : JsVal -> StatusOp -> UpdateOutcome :=
  fun _ _ => UpdateResult (Some 0).

(** Only the record with the given id exists. *)
Definition record_with_id (id : string) : JsVal -> StatusOp -> UpdateOutcome :=
  fun oid _ =>
    match oid with
    | JString i => if String.eqb i id then UpdateResult (Some 1)
                   else UpdateResult (Some 0)
    | JUndefined => UpdateResult (Some 0)
    end.

(** The connection to the document store drops for the [DONE] write. *)
Definition done_write_drops : JsVal -> StatusOp -> UpdateOutcome :=
  fun _ op =>
    if Z.eqb (status op) server.STATE_DONE then UpdateError (Error "ECONNRESET")
    else UpdateResult (Some 1).

(** The document store rejects with an error whose message is SLICER. *)
Definition write_rejects_slicer : JsVal -> StatusOp -> UpdateOutcome :=
  fun _ _ => UpdateError (Error "SLICER").

Definition all_deleted : JsVal -> option JsError := fun _ => None.
Definition none_exists : JsVal -> option JsError :=
  fun _ => Some (Error "ENOENT: no such file or directory").

Definition w_ok : World := world record_present None None all_deleted.
Definition w_slicer_fails : World :=
  world record_present (Some (Error "Command failed")) None all_deleted.
Definition w_upload_fails : World :=
  world record_present None (Some (Error "RequestTimeout")) all_deleted.
Definition w_record_gone : World := world record_gone None None all_deleted.
Definition w_only_known_record : World :=
  world (record_with_id "59f1c0ffee59f1c0ffee0000") None None all_deleted.
Definition w_done_write_drops : World :=
  world done_write_drops None None none_exists.
Definition w_write_rejects_slicer : World :=
  world write_rejects_slicer None None all_deleted.
Definition w_no_files : World := world record_present None None none_exists.

(** A complete request. *)
Definition raw_ok : gmap string string :=
  list_to_map
    [("config_file", "https://s3.example.com/configs/p3d/fine.ini");
     ("gcode_file", "https://s3.example.com/gcode/p3d/cube.gcode");
     ("handle", "receipt-1");
     ("job_id", "P3D0042-17");
     ("job_oid", "59f1c0ffee59f1c0ffee0000");
     ("stl_file", "https://s3.example.com/models/p3d/cube.stl")].

(** The same request without its STL URL, and without its job record id. *)
Definition raw_no_stl : gmap string string := delete "stl_file" raw_ok.
Definition raw_no_oid : gmap string string := delete "job_oid" raw_ok.

(** The process before the message arrives. *)
Definition s_init : St :=
  {| msg := server.cloneDeep ∅; trace := [];
     jobsSucceeded := 0; jobsFailed := 0; jobsFailedSlicing := 0;
     jobsCanceled := 0; totalSlicingTime := Qmake 0 1;
     clock := 0; draws := 0 |}.

End Scenario.

(** ** Further readings of a run *)

(** A string without [/]. *)
Fixpoint slash_free (s : string) : bool :=
  match s with
  | EmptyString => true
  | String c r => negb (Ascii.eqb c (Ascii.ascii_of_nat 47)) && slash_free r
  end.

(** The queue dispositions among a list of calls. *)
Definition dispositions (t : list Event) : list Event :=
  List.filter is_disposition t.

(** Calls that move data or run the slicer. *)
Definition is_work (e : Event) : bool :=
  match e with
  | EDownloadObject _ _ _ _ | EUploadFile _ _ _ _ | EExec _ => true
  | _ => false
  end.

(** Calls that take a message in: tracking it and raising the count of
    running processes. *)
Definition is_intake (e : Event) : bool :=
  match e with
  | ETrackMessage _ | ERunningProcessesInc _ => true
  | _ => false
  end.


(** The sum of the four job counters. *)
Definition jobs_counted (s : St) : Z :=
  jobsSucceeded s + jobsFailed s + jobsFailedSlicing s + jobsCanceled s.

(** The state codes [updateState] can write. *)
Definition known_states : list Z :=
  [server.STATE_WAITING; server.STATE_PRE; server.STATE_RUN; server.STATE_POST;
   server.STATE_DONE; server.STATE_FAIL; server.STATE_ERR].

(** The message as [processMessage] has it when the loop over [mustHave]
    runs: cloned, with [job_oid] assigned. *)
Definition checked_message (raw : gmap string string) (oid : JsVal) : Msg :=
  set_prop "job_oid" oid (server.cloneDeep raw).

(** A world like [Scenario.w_ok] in which a file reference is a bare
    relative name, whose path is the name itself, and a message whose STL
    reference is such a name. *)
Definition w_relative : World :=
  {| ObjectId := ObjectId Scenario.w_ok;
     PrintJob_update := PrintJob_update Scenario.w_ok;
     s3_downloadObject := s3_downloadObject Scenario.w_ok;
     stl_rejects_first := stl_rejects_first Scenario.w_ok;
     s3_uploadFile := s3_uploadFile Scenario.w_ok;
     child_exec := child_exec Scenario.w_ok;
     fs_unlink := fs_unlink Scenario.w_ok;
     URL_pathname := fun u => Some u;
     path_parse := path_parse Scenario.w_ok;
     path_format := path_format Scenario.w_ok;
     alphaNumMixed := alphaNumMixed Scenario.w_ok;
     Date_now := Date_now Scenario.w_ok;
     CuraTemplate := CuraTemplate Scenario.w_ok;
     workDir := workDir Scenario.w_ok |}.

Definition raw_relative : gmap string string :=
  <["stl_file" := "cube.stl"]> Scenario.raw_ok.

(** The process holding a cloned message, before its URLs are parsed. *)
Definition holding (raw : gmap string string) : St :=
  with_msg (fun _ => server.cloneDeep raw) Scenario.s_init.

(** ** The id text of [objectIdFromTimeStamp] *)

(** One digit of [Number.prototype.toString(16)]. *)
Definition hex_digit (d : N) : Ascii.ascii :=
  default Ascii.zero (String.get (N.to_nat d) "0123456789abcdef").

(** The digits of [n], most significant first, put in front of [acc]. *)
Fixpoint hex_loop (fuel : nat) (n : N) (acc : string) : string :=
  match fuel with
  | O => acc
  | S f =>
      let acc' := String (hex_digit (n mod 16)) acc in
      if N.eqb (n / 16) 0 then acc' else hex_loop f (n / 16) acc'
  end.

(** [z.toString(16)] for an integer [z]. *)
Definition toString16 (z : Z) : string :=
  if Z.ltb z 0 then
    "-" +:+ hex_loop (S (N.to_nat (N.log2 (Z.to_N (- z))))) (Z.to_N (- z))
              EmptyString
  else
    hex_loop (S (N.to_nat (N.log2 (Z.to_N z)))) (Z.to_N z) EmptyString.

(** The argument of [objectIdFromTimeStamp]: nothing, a string, or a date
    given by its milliseconds ([None]: an invalid date). *)
Inductive Timestamp : Type :=
| TsNothing
| TsText (text : string)
| TsDate (ms : option Z).

(** [Math.floor(timestamp / 1000).toString(16) + '0000000000000000'] *)
Definition id_text (ms : option Z) : string :=
  match ms with
  | Some t => toString16 (t / 1000)
  | None => "NaN"
  end +:+ "0000000000000000".

(** [objectIdFromTimeStamp(timestamp)], with the parser of [new Date(text)]
    as a parameter; the result is what the object-id constructor makes of
    the text ([None]: it throws). *)
Definition objectIdFromTimeStampOf (w : World) (Date_parse : string -> option Z)
    (timestamp : Timestamp) : St -> option JsVal * St :=
  fun s =>
    let '(ms, s') :=
      match timestamp with
      | TsNothing => (Some (lib.roundHour (Date_now w (clock s))), tick s)
      | TsText text =>
          if lib.isEmpty text
          then (Some (lib.roundHour (Date_now w (clock s))), tick s)
          else (Date_parse text, s)
      | TsDate ms => (ms, s)
      end in
    (ObjectId w (JString (id_text ms)), s').

(** ** Basic facts *)

Section Facts.
Variable w : World.

Lemma pipeline_stages s :
  server.pipeline w s = catch_ (stages w) (server.on_failure w) s.
Proof. reflexivity. Qed.

Lemma processMessage_tracked raw s0 s3 :
  tracked w raw s0 s3 →
  server.processMessage w raw s0 = server.returned (server.pipeline w s3).
Proof.
  intros (oid & s1 & Hoid & Hmiss & Hparse & ->).
  unfold server.processMessage. rewrite Hoid. cbn [msg with_msg].
  rewrite Hmiss, Hparse. reflexivity.
Qed.

Lemma updateState_eq state err s st txt det :
  server.describe state err = Some (st, txt, det) →
  server.updateState w state err s =
    (write_settles (PrintJob_update w (prop (msg s) "job_oid")
                      (server.status_op (msg s) st txt det)),
     emit (EPrintJobUpdate (prop (msg s) "job_oid")
             (server.status_op (msg s) st txt det)) s).
Proof.
  intros Hd. unfold server.updateState. rewrite Hd.
  unfold catch_, then_, server.PrintJob_update_exec, write_settles.
  destruct (PrintJob_update w _ _) as [n|e]; cbn.
  - destruct (server.no_row_matched n); reflexivity.
  - destruct (String.eqb (message e) "CANCELED" || String.eqb (message e) "SLICER");
      reflexivity.
Qed.

End Facts.

(** ** Frames of the stages *)

Section Frames.
Variable w : World.

Lemma stage_step_refl s : stage_step w s s.
Proof.
  split; [by repeat split|]. split; [done|].
  exists []. rewrite app_nil_r. split; [done|]. split; [constructor|by left].
Qed.

Lemma stage_step_trans s1 s2 s3 :
  stage_step w s1 s2 → stage_step w s2 s3 → stage_step w s1 s3.
Proof.
  intros ((a1 & a2 & a3 & a4) & Hf1 & evs1 & Ht1 & Hq1 & Hs1)
         ((b1 & b2 & b3 & b4) & Hf2 & evs2 & Ht2 & Hq2 & Hs2).
  split; [repeat split; congruence|]. split; [congruence|].
  exists (evs1 ++ evs2). split; [by rewrite Ht2, Ht1, app_assoc|].
  split; [by apply Forall_app|].
  destruct Hs2 as [Hs2|(cmd & Hin & Hok)].
  - destruct Hs1 as [Hs1|(cmd & Hin & Hok)].
    + left. congruence.
    + right. exists cmd. split; [|done]. apply elem_of_app. by left.
  - right. exists cmd. split; [|done]. apply elem_of_app. by right.
Qed.

(** A step that only issues stage calls and leaves the total alone. *)
Lemma stage_step_calls s s' (evs : list Event) :
  same_counts s s' →
  fields (msg s') = fields (msg s) →
  trace s' = trace s ++ evs →
  forallb is_stage_call evs = true →
  totalSlicingTime s' = totalSlicingTime s →
  stage_step w s s'.
Proof.
  intros Hc Hf Ht Hq Hs. split; [done|]. split; [done|].
  exists evs. split; [done|]. split; [|by left].
  apply Forall_forall. intros e He.
  rewrite forallb_forall in Hq. apply Hq. by apply list_elem_of_In.
Qed.

Lemma updateState_step state err s :
  stage_step w s (server.updateState w state err s).2.
Proof.
  destruct (server.describe state err) as [[[st txt] det]|] eqn:Hd.
  - rewrite (updateState_eq w _ _ _ _ _ _ Hd). cbn [snd].
    eapply stage_step_calls; [by repeat split|done|reflexivity|done|done].
  - unfold server.updateState. rewrite Hd. apply stage_step_refl.
Qed.

Ltac step_calls :=
  eapply stage_step_calls;
  [ by repeat split
  | reflexivity
  | cbn; rewrite <- ?app_assoc; reflexivity
  | reflexivity
  | reflexivity ].

Lemma downloadFiles_step s :
  stage_step w s (server.downloadFiles w s).2.
Proof.
  unfold server.downloadFiles, then_.
  erewrite updateState_eq by reflexivity.
  destruct (write_settles _); [|step_calls].
  unfold server.new_Date, server.downloadObject, server.Promise_join.
  cbn [msg with_msg tick emit]. unfold then_.
  destruct (s3_downloadObject w _ _ _ _), (s3_downloadObject w _ _ _ _);
    try destruct (stl_rejects_first w); step_calls.
Qed.

Lemma uploadFile_step s :
  stage_step w s (server.uploadFile w s).2.
Proof.
  unfold server.uploadFile, then_.
  erewrite updateState_eq by reflexivity.
  destruct (write_settles _); [|step_calls].
  unfold server.new_Date, server.s3_upload. cbn [msg with_msg tick emit].
  destruct (s3_uploadFile w _ _ _ _); step_calls.
Qed.

Lemma spawnSlicer_step s :
  stage_step w s (server.spawnSlicer w s).2.
Proof.
  unfold server.spawnSlicer, then_.
  erewrite updateState_eq by reflexivity.
  destruct (write_settles _); [|step_calls].
  unfold server.new_Date, server.exec, catch_, then_.
  cbn [msg with_msg tick emit].
  destruct (child_exec w _) eqn:Hx; [step_calls|].
  split; [by repeat split|]. split; [reflexivity|].
  eexists. split; [cbn; rewrite <- ?app_assoc; reflexivity|].
  split; [repeat constructor|].
  right. eexists. split; [|exact Hx]. set_solver.
Qed.

Lemma then_step {A B} (p : Promise A) (f : A → Promise B) :
  (∀ s, stage_step w s (p s).2) →
  (∀ a s, stage_step w s (f a s).2) →
  ∀ s, stage_step w s (then_ p f s).2.
Proof.
  intros Hp Hf s. unfold then_. specialize (Hp s).
  destruct (p s) as [[a|e] s']; cbn [snd] in *; [|done].
  eapply stage_step_trans; [exact Hp|apply Hf].
Qed.

Lemma front_step s : stage_step w s (front w s).2.
Proof.
  unfold front. apply then_step; [apply then_step|].
  - apply downloadFiles_step.
  - intros _. apply spawnSlicer_step.
  - intros _. apply uploadFile_step.
Qed.

Lemma unlink_each_state l s : (lib.unlink_each w l s).2 = unlink_all l s.
Proof.
  revert s. induction l as [|f l IH]; intros s; [done|].
  change (unlink_all (f :: l) s) with (unlink_all l (emit (EUnlink f) s)).
  rewrite <- IH. cbn [lib.unlink_each]. unfold lib.unlink at 1.
  destruct (fs_unlink w f);
    destruct (lib.unlink_each w l (emit (EUnlink f) s)) as [rs s2];
    reflexivity.
Qed.

Lemma Promise_all_swallowed rs s :
  catch_ (lib.Promise_all rs >>= (fun _ => resolve tt)) (fun _ => resolve tt) s
  = (Resolve tt, s).
Proof.
  induction rs as [|[[]|e] rs IH]; [done|exact IH|done].
Qed.

(** Given an array, [removeFiles] resolves whatever [unlink] answers. *)
Lemma removeFiles_array logid l s :
  lib.removeFiles w logid (lib.FilesArray l) s = (Resolve tt, unlink_all l s).
Proof.
  destruct l as [|f [|g l]].
  - reflexivity.
  - cbn [lib.removeFiles]. unfold catch_, then_, lib.unlink.
    destruct (fs_unlink w f); reflexivity.
  - unfold lib.removeFiles.
    destruct (lib.unlink_each w (f :: g :: l) s) as [rs s'] eqn:Hl.
    rewrite Promise_all_swallowed. rewrite <- unlink_each_state, Hl. reflexivity.
Qed.

(** Given one non-empty name as a string, [removeFiles] is [unlink]. *)
Lemma removeFiles_string logid f s :
  f ≠ EmptyString →
  lib.removeFiles w logid (lib.FilesString f) s = lib.unlink w (JString f) s.
Proof.
  intros Hf. unfold lib.removeFiles, lib.isEmpty.
  apply String.eqb_neq in Hf. by rewrite Hf.
Qed.

Lemma trace_unlink_all l s :
  trace (unlink_all l s) = trace s ++ map EUnlink l.
Proof.
  revert s. induction l as [|f l IH]; intros s; cbn.
  - by rewrite app_nil_r.
  - change (foldl _ _ l) with (unlink_all l (emit (EUnlink f) s)).
    rewrite IH. cbn. by rewrite <- app_assoc.
Qed.

Lemma cleanFiles_eq s :
  server.cleanFiles w s = (Resolve tt, unlink_all (locals (msg s)) s).
Proof.
  unfold server.cleanFiles, then_, server.local_files.
  rewrite removeFiles_array. reflexivity.
Qed.

Lemma notifyDone_eq s :
  server.notifyDone w s =
    match write_settles (PrintJob_update w (prop (msg s) "job_oid")
                           (done_op (msg s))) with
    | Resolve _ =>
        (Resolve tt,
         emit (ERemoveMessage (prop (msg s) "handle"))
           (emit (EPrintJobUpdate (prop (msg s) "job_oid") (done_op (msg s))) s))
    | Reject e =>
        (Reject e,
         emit (EPrintJobUpdate (prop (msg s) "job_oid") (done_op (msg s))) s)
    end.
Proof.
  unfold server.notifyDone, then_.
  erewrite updateState_eq by reflexivity. fold (done_op (msg s)).
  destruct (write_settles _) as [[]|e]; reflexivity.
Qed.

Lemma stages_eq s :
  stages w s =
    match front w s with
    | (Resolve _, s4) =>
        match write_settles (PrintJob_update w (prop (msg s4) "job_oid")
                               (done_op (msg s4))) with
        | Resolve _ => (Resolve tt, finished w s4)
        | Reject e =>
            (Reject e,
             emit (EPrintJobUpdate (prop (msg s4) "job_oid") (done_op (msg s4))) s4)
        end
    | (Reject e, s4) => (Reject e, s4)
    end.
Proof.
  unfold stages. fold (front w). unfold then_ at 1 2 3.
  destruct (front w s) as [[[]|e] s4]; [|reflexivity].
  rewrite notifyDone_eq.
  destruct (write_settles _) as [[]|e]; [|reflexivity].
  rewrite cleanFiles_eq. reflexivity.
Qed.

Lemma unlink_all_frame l t :
  msg (unlink_all l t) = msg t ∧ clock (unlink_all l t) = clock t ∧
  jobsSucceeded (unlink_all l t) = jobsSucceeded t ∧
  jobsFailed (unlink_all l t) = jobsFailed t ∧
  jobsFailedSlicing (unlink_all l t) = jobsFailedSlicing t ∧
  jobsCanceled (unlink_all l t) = jobsCanceled t ∧
  totalSlicingTime (unlink_all l t) = totalSlicingTime t.
Proof.
  revert t. induction l as [|f l IH]; intros t; [done|].
  change (unlink_all (f :: l) t) with (unlink_all l (emit (EUnlink f) t)).
  destruct (IH (emit (EUnlink f) t)) as (?&?&?&?&?&?&?). by repeat split.
Qed.

Lemma finished_facts s :
  trace (finished w s) = trace s ++ success_tail w s ∧
  jobsSucceeded (finished w s) = jobsSucceeded s + 1 ∧
  jobsFailed (finished w s) = jobsFailed s ∧
  jobsFailedSlicing (finished w s) = jobsFailedSlicing s ∧
  jobsCanceled (finished w s) = jobsCanceled s ∧
  totalSlicingTime (finished w s) = totalSlicingTime s ∧
  msg (finished w s) = msg s.
Proof.
  unfold finished, server.record_success, lib.objectIdFromTimeStamp,
    server.Stats_update, success_tail.
  cbn -[unlink_all locals]. rewrite trace_unlink_all.
  match goal with |- context [unlink_all ?l ?t] =>
    destruct (unlink_all_frame l t) as (Hm & Hc & H1 & H2 & H3 & H4 & H5) end.
  rewrite Hm, Hc, H1, H2, H3, H4, H5. unfold hour_id. cbn -[locals].
  rewrite <- !app_assoc. by repeat split.
Qed.

(** The handler of the final [.catch], branch by branch. *)

Lemma on_failure_canceled e s :
  message e = "CANCELED" →
  let s' := (server.on_failure w e s).2 in
  (server.on_failure w e s).1 = Resolve tt ∧
  trace s' = trace s
    ++ [EStatsUpdate (hour_id w s) canceled_inc]
    ++ map EUnlink (locals (msg s))
    ++ [ERemoveMessage (prop (msg s) "handle")] ∧
  jobsCanceled s' = jobsCanceled s + 1 ∧
  jobsSucceeded s' = jobsSucceeded s ∧ jobsFailed s' = jobsFailed s ∧
  jobsFailedSlicing s' = jobsFailedSlicing s ∧
  totalSlicingTime s' = totalSlicingTime s.
Proof.
  intros He. unfold server.on_failure. rewrite He. cbn [String.eqb Ascii.eqb Bool.eqb].
  unfold detached, lib.objectIdFromTimeStamp, server.Stats_update,
    server.local_files, server.queue_removeMessage.
  rewrite removeFiles_array. cbn -[unlink_all locals].
  rewrite trace_unlink_all.
  match goal with |- context [unlink_all ?l ?t] =>
    destruct (unlink_all_frame l t) as (Hm & Hc & H1 & H2 & H3 & H4 & H5) end.
  rewrite Hm, H1, H2, H3, H4, H5. cbn -[locals]. unfold hour_id.
  rewrite <- !app_assoc. by repeat split.
Qed.

Lemma on_failure_slicer e s :
  message e = "SLICER" →
  let s' := (server.on_failure w e s).2 in
  (server.on_failure w e s).1 = Resolve tt ∧
  trace s' = trace s
    ++ [EStatsUpdate (hour_id w s) failed_inc;
        EPrintJobUpdate (prop (msg s) "job_oid") (fail_op (msg s))]
    ++ map EUnlink (locals (msg s))
    ++ [ERemoveMessage (prop (msg s) "handle")] ∧
  jobsFailedSlicing s' = jobsFailedSlicing s + 1 ∧
  jobsSucceeded s' = jobsSucceeded s ∧ jobsFailed s' = jobsFailed s ∧
  jobsCanceled s' = jobsCanceled s ∧
  totalSlicingTime s' = totalSlicingTime s.
Proof.
  intros He. unfold server.on_failure. rewrite He. cbn [String.eqb Ascii.eqb Bool.eqb].
  unfold detached, lib.objectIdFromTimeStamp, server.Stats_update,
    server.local_files, server.queue_removeMessage.
  erewrite updateState_eq by reflexivity.
  rewrite removeFiles_array. cbn -[unlink_all locals].
  rewrite trace_unlink_all.
  match goal with |- context [unlink_all ?l ?t] =>
    destruct (unlink_all_frame l t) as (Hm & Hc & H1 & H2 & H3 & H4 & H5) end.
  rewrite Hm, H1, H2, H3, H4, H5. cbn -[locals]. unfold hour_id.
  rewrite <- !app_assoc. by repeat split.
Qed.

Lemma on_failure_other e s :
  message e ≠ "CANCELED" → message e ≠ "SLICER" →
  let s' := (server.on_failure w e s).2 in
  (server.on_failure w e s).1 = Resolve tt ∧
  trace s' = trace s
    ++ [EPrintJobUpdate (prop (msg s) "job_oid")
          (err_op (msg s) (JString (message e)))]
    ++ map EUnlink (locals (msg s))
    ++ [ERequeueMessage (prop (msg s) "handle")] ∧
  jobsFailed s' = jobsFailed s + 1 ∧
  jobsSucceeded s' = jobsSucceeded s ∧
  jobsFailedSlicing s' = jobsFailedSlicing s ∧
  jobsCanceled s' = jobsCanceled s ∧
  totalSlicingTime s' = totalSlicingTime s.
Proof.
  intros Hc Hs. unfold server.on_failure.
  apply String.eqb_neq in Hc, Hs. rewrite Hc, Hs.
  unfold detached, server.local_files, server.queue_requeueMessage.
  erewrite updateState_eq by reflexivity.
  rewrite removeFiles_array. cbn -[unlink_all locals].
  rewrite trace_unlink_all.
  match goal with |- context [unlink_all ?l ?t] =>
    destruct (unlink_all_frame l t) as (Hm & Hk & H1 & H2 & H3 & H4 & H5) end.
  rewrite Hm, H1, H2, H3, H4, H5. cbn -[locals].
  rewrite <- !app_assoc. by repeat split.
Qed.

End Frames.

(** ** Runs of the stages *)

Section Runs.
Variable w : World.

Lemma writes_succeed_settles oid op :
  writes_succeed w oid → write_settles (PrintJob_update w oid op) = Resolve tt.
Proof. intros Hw. destruct (Hw op) as (n & -> & Hn). cbn. by rewrite Hn. Qed.

Ltac same_props :=
  repeat match goal with
  | |- context [prop (set_download_time ?t ?m) ?k] =>
      change (prop (set_download_time t m) k) with (prop m k)
  | |- context [prop (set_upload_time ?t ?m) ?k] =>
      change (prop (set_upload_time t m) k) with (prop m k)
  | |- context [prop (set_slicing_time ?t ?m) ?k] =>
      change (prop (set_slicing_time t m) k) with (prop m k)
  end.

Lemma prop_same m m' k : fields m' = fields m → prop m' k = prop m k.
Proof. unfold prop. by intros ->. Qed.

Lemma status_writes_kinds (evs : list Event) :
  status_writes evs = states_of (map kind_of evs).
Proof.
  induction evs as [|e evs IH]; [done|].
  unfold status_writes, states_of in *. destruct e; cbn; by rewrite IH.
Qed.

Lemma parseUrl_quiet wd key s : quiet s (lib.parseUrl w wd key s).2.
Proof.
  unfold lib.parseUrl.
  destruct (lib.isEmpty key); [by repeat split|].
  destruct (negb _); [by repeat split|].
  destruct (prop _ _) as [|url]; [by repeat split|].
  destruct (URL_pathname w url); by repeat split.
Qed.

Lemma parse_urls_quiet s : quiet s (server.parse_urls w s).2.
Proof.
  unfold server.parse_urls.
  pose proof (parseUrl_quiet (workDir w) "stl" s) as H1.
  destruct (lib.parseUrl w (workDir w) "stl" s) as [[e|] s1]; [done|].
  pose proof (parseUrl_quiet (workDir w) "config" s1) as H2.
  destruct (lib.parseUrl w (workDir w) "config" s1) as [[e|] s2].
  - cbn [snd] in *. destruct H1 as (?&(?&?&?&?)&?), H2 as (?&(?&?&?&?)&?).
    repeat split; congruence.
  - pose proof (parseUrl_quiet (workDir w) "gcode" s2) as H3.
    cbn [snd] in *.
    destruct H1 as (?&(?&?&?&?)&?), H2 as (?&(?&?&?&?)&?), H3 as (?&(?&?&?&?)&?).
    repeat split; congruence.
Qed.

Lemma tracked_start raw s0 s3 :
  tracked w raw s0 s3 →
  trace s3 = trace s0
    ++ [ETrackMessage (prop (msg s3) "handle"); ERunningProcessesInc 1] ∧
  same_counts s0 s3 ∧ totalSlicingTime s3 = totalSlicingTime s0.
Proof.
  intros (oid & s1 & Hoid & Hmiss & Hparse & ->).
  pose proof (parse_urls_quiet
    (with_msg (fun _ => set_prop "job_oid" oid (server.cloneDeep raw)) s0)) as Hq.
  rewrite Hparse in Hq. cbn [snd] in Hq. destruct Hq as (Ht & (?&?&?&?) & ?).
  cbn. rewrite Ht. cbn. rewrite <- app_assoc. by repeat split.
Qed.

Lemma downloadFiles_success s :
  writes_succeed w (prop (msg s) "job_oid") →
  s3_downloadObject w (prop (msg s) "job_id") (prop (msg s) "stl_bucket")
    (prop (msg s) "stl_key") (prop (msg s) "stl_local") = None →
  s3_downloadObject w (prop (msg s) "job_id") (prop (msg s) "config_bucket")
    (prop (msg s) "config_key") (prop (msg s) "config_local") = None →
  ∃ s' evs,
    server.downloadFiles w s = (Resolve tt, s') ∧
    fields (msg s') = fields (msg s) ∧
    trace s' = trace s ++ evs ∧
    map kind_of evs = [KStatus 1; KDownload; KDownload].
Proof.
  intros Hw Hstl Hcfg.
  unfold server.downloadFiles, then_.
  erewrite updateState_eq by reflexivity.
  rewrite (writes_succeed_settles _ _ Hw).
  unfold server.new_Date, server.downloadObject. cbn [msg with_msg tick emit].
  same_props. rewrite Hstl, Hcfg. cbn.
  eexists _, _. split; [reflexivity|]. split; [reflexivity|].
  split; [cbn; rewrite <- !app_assoc; reflexivity|reflexivity].
Qed.

Lemma spawnSlicer_success s :
  writes_succeed w (prop (msg s) "job_oid") →
  child_exec w (CuraTemplate w (prop (msg s) "config_local")
                  (prop (msg s) "stl_local") (prop (msg s) "gcode_local")) = None →
  ∃ s' evs,
    server.spawnSlicer w s = (Resolve tt, s') ∧
    fields (msg s') = fields (msg s) ∧
    trace s' = trace s ++ evs ∧
    map kind_of evs = [KStatus 2; KExec].
Proof.
  intros Hw Hx.
  unfold server.spawnSlicer, then_.
  erewrite updateState_eq by reflexivity.
  rewrite (writes_succeed_settles _ _ Hw).
  unfold server.new_Date, server.exec, catch_, then_. cbn [msg with_msg tick emit].
  same_props. rewrite Hx. cbn.
  eexists _, _. split; [reflexivity|]. split; [reflexivity|].
  split; [cbn; rewrite <- !app_assoc; reflexivity|reflexivity].
Qed.

Lemma uploadFile_success s :
  writes_succeed w (prop (msg s) "job_oid") →
  s3_uploadFile w (prop (msg s) "job_id") (prop (msg s) "gcode_local")
    (prop (msg s) "gcode_bucket") (prop (msg s) "gcode_key") = None →
  ∃ s' evs,
    server.uploadFile w s = (Resolve tt, s') ∧
    fields (msg s') = fields (msg s) ∧
    trace s' = trace s ++ evs ∧
    map kind_of evs = [KStatus 3; KUpload].
Proof.
  intros Hw Hx.
  unfold server.uploadFile, then_.
  erewrite updateState_eq by reflexivity.
  rewrite (writes_succeed_settles _ _ Hw).
  unfold server.new_Date, server.s3_upload. cbn [msg with_msg tick emit].
  same_props. rewrite Hx. cbn.
  eexists _, _. split; [reflexivity|]. split; [reflexivity|].
  split; [cbn; rewrite <- !app_assoc; reflexivity|reflexivity].
Qed.

Lemma front_success s :
  writes_succeed w (prop (msg s) "job_oid") →
  s3_downloadObject w (prop (msg s) "job_id") (prop (msg s) "stl_bucket")
    (prop (msg s) "stl_key") (prop (msg s) "stl_local") = None →
  s3_downloadObject w (prop (msg s) "job_id") (prop (msg s) "config_bucket")
    (prop (msg s) "config_key") (prop (msg s) "config_local") = None →
  child_exec w (CuraTemplate w (prop (msg s) "config_local")
                  (prop (msg s) "stl_local") (prop (msg s) "gcode_local")) = None →
  s3_uploadFile w (prop (msg s) "job_id") (prop (msg s) "gcode_local")
    (prop (msg s) "gcode_bucket") (prop (msg s) "gcode_key") = None →
  ∃ s4 evs,
    front w s = (Resolve tt, s4) ∧ fields (msg s4) = fields (msg s) ∧
    trace s4 = trace s ++ evs ∧
    map kind_of evs =
      [KStatus 1; KDownload; KDownload; KStatus 2; KExec; KStatus 3; KUpload].
Proof.
  intros Hw Hstl Hcfg Hx Hup.
  destruct (downloadFiles_success s Hw Hstl Hcfg)
    as (s1 & e1 & Hr1 & Hf1 & Ht1 & Hk1).
  destruct (spawnSlicer_success s1) as (s2 & e2 & Hr2 & Hf2 & Ht2 & Hk2).
  { by rewrite (prop_same _ _ _ Hf1). }
  { by rewrite !(prop_same _ _ _ Hf1). }
  destruct (uploadFile_success s2) as (s3 & e3 & Hr3 & Hf3 & Ht3 & Hk3).
  { by rewrite (prop_same _ _ _ Hf2), (prop_same _ _ _ Hf1). }
  { by rewrite !(prop_same _ _ _ Hf2), !(prop_same _ _ _ Hf1). }
  exists s3, (e1 ++ e2 ++ e3).
  unfold front, then_. rewrite Hr1, Hr2, Hr3.
  split; [done|]. split; [congruence|].
  split; [by rewrite Ht3, Ht2, Ht1, <- !app_assoc|].
  by rewrite !map_app, Hk1, Hk2, Hk3.
Qed.

Lemma success_tail_kinds s :
  map kind_of (success_tail w s) =
    [KStatus 4; KRemove; KUnlink; KUnlink; KUnlink; KStats; KStats].
Proof. reflexivity. Qed.

Lemma stages_rejected s e :
  (stages w s).1 = Reject e → stage_step w s (stages w s).2.
Proof.
  rewrite stages_eq. pose proof (front_step w s) as Hfront.
  destruct (front w s) as [[[]|e'] s4]; cbn [snd] in Hfront; [|done].
  destruct (write_settles _) as [[]|e']; [done|]. intros _. cbn [snd].
  eapply stage_step_trans; [exact Hfront|].
  eapply stage_step_calls; [by repeat split|done|reflexivity|done|done].
Qed.

(** A tracked message whose chain rejects: what has happened when the
    final handler is entered, and that the handler decides the rest. *)
Lemma failure_run raw s0 s3 e :
  tracked w raw s0 s3 →
  (stages w s3).1 = Reject e →
  server.processMessage w raw s0 =
    (server.Returned (server.on_failure w e (stages w s3).2).1,
     (server.on_failure w e (stages w s3).2).2) ∧
  same_counts s0 (stages w s3).2 ∧
  fields (msg (stages w s3).2) = fields (msg s3) ∧
  ∃ calls : list Event,
    Forall (fun c => is_stage_call c = true) calls ∧
    trace (stages w s3).2 =
      trace s0 ++ [ETrackMessage (prop (msg s3) "handle"); ERunningProcessesInc 1]
        ++ calls ∧
    (totalSlicingTime (stages w s3).2 = totalSlicingTime s0 ∨
     ∃ cmd, EExec cmd ∈ calls ∧ child_exec w cmd = None).
Proof.
  intros Htr Hrej.
  destruct (tracked_start raw s0 s3 Htr) as (Ht0 & (c1 & c2 & c3 & c4) & Htot).
  destruct (stages_rejected s3 e Hrej)
    as ((d1 & d2 & d3 & d4) & Hf & calls & Ht & Hq & Hs).
  split.
  { rewrite (processMessage_tracked w raw s0 s3 Htr), pipeline_stages.
    unfold server.returned, catch_.
    destruct (stages w s3) as [r sf]. cbn [fst] in Hrej. subst r. reflexivity. }
  split; [repeat split; congruence|]. split; [done|].
  exists calls. split; [done|].
  split; [by rewrite Ht, Ht0, <- app_assoc|].
  destruct Hs as [Hs|Hs]; [left; congruence|by right].
Qed.

(** A tracked message whose chain resolves: the upload has finished, the
    [DONE] write did not reject, and the job ends in [finished]. *)
Lemma success_run raw s0 s3 :
  tracked w raw s0 s3 →
  (stages w s3).1 = Resolve tt →
  ∃ s4 (calls : list Event),
    front w s3 = (Resolve tt, s4) ∧
    server.processMessage w raw s0 = (server.Returned (Resolve tt), finished w s4) ∧
    same_counts s0 s4 ∧
    fields (msg s4) = fields (msg s3) ∧
    Forall (fun c => is_stage_call c = true) calls ∧
    trace s4 =
      trace s0 ++ [ETrackMessage (prop (msg s3) "handle"); ERunningProcessesInc 1]
        ++ calls ∧
    (totalSlicingTime s4 = totalSlicingTime s0 ∨
     ∃ cmd, EExec cmd ∈ calls ∧ child_exec w cmd = None).
Proof.
  intros Htr Hres.
  destruct (tracked_start raw s0 s3 Htr) as (Ht0 & (c1 & c2 & c3 & c4) & Htot).
  rewrite (processMessage_tracked w raw s0 s3 Htr), pipeline_stages.
  unfold server.returned, catch_.
  rewrite stages_eq in Hres |- *. pose proof (front_step w s3) as Hfront.
  destruct (front w s3) as [[[]|e'] s4]; cbn [snd] in Hfront; [|done].
  destruct (write_settles _) as [[]|e']; [|done].
  destruct Hfront as ((d1 & d2 & d3 & d4) & Hf & calls & Ht & Hq & Hs).
  exists s4, calls. split; [done|]. split; [done|].
  split; [repeat split; congruence|]. split; [done|]. split; [done|].
  split; [by rewrite Ht, Ht0, <- app_assoc|].
  destruct Hs as [Hs|Hs]; [left; congruence|by right].
Qed.

Lemma stage_calls_not_final (calls : list Event) :
  Forall (fun c => is_stage_call c = true) calls →
  forallb (fun c => negb (is_disposition c || is_unlink c)) calls = true.
Proof.
  intros H. apply forallb_forall. intros c Hc.
  rewrite Forall_forall in H. apply list_elem_of_In, H in Hc.
  by destruct c.
Qed.

End Runs.

(** ** Requests that are turned away *)

Lemma reject_request_run (w : World) (text : string) (s : St) :
  (server.reject_request w text s).1 = Resolve tt ∧
  same_counts s (server.reject_request w text s).2 ∧
  totalSlicingTime (server.reject_request w text s).2 = totalSlicingTime s ∧
  ∃ evs : list Event,
    trace (server.reject_request w text s).2 = trace s ++ evs ∧
    forallb (fun c => is_stage_call c || is_disposition c) evs = true.
Proof.
  unfold server.reject_request, catch_, then_, server.queue_removeMessage.
  erewrite updateState_eq by reflexivity.
  destruct (write_settles _) as [[]|e]; cbn.
  - split; [done|]. split; [by repeat split|]. split; [done|].
    eexists. split; [rewrite <- app_assoc; reflexivity|reflexivity].
  - split; [done|]. split; [by repeat split|]. split; [done|].
    eexists. split; [reflexivity|reflexivity].
Qed.

Lemma no_stats_among (evs : list Event) id inc :
  forallb (fun c => is_stage_call c || is_disposition c) evs = true →
  EStatsUpdate id inc ∉ evs.
Proof.
  intros H Hin. rewrite forallb_forall in H.
  apply list_elem_of_In, H in Hin. discriminate.
Qed.

(** ** Properties of the pipeline *)

(** C1.  A message that is accepted for processing (object id built, the
    six fields present, the three URLs parsed) and whose status writes,
    two downloads, slicer run and upload all succeed: [processMessage]
    issues, in this order, tracking, the PREPARING write, the two
    downloads, the RUNNING write, the slicer, the POSTPROCESSING write, the
    upload, the DONE write, the queue removal, the three unlinks and the two
    stats upserts.  The states written are exactly PREPARING, RUNNING,
    POSTPROCESSING, DONE, each before the external operation of its stage. *)
Theorem success_writes_states_in_order (w : World) (raw : gmap string string)
    (s0 s3 : St) :
  tracked w raw s0 s3 →
  writes_succeed w (prop (msg s3) "job_oid") →
  s3_downloadObject w (prop (msg s3) "job_id") (prop (msg s3) "stl_bucket")
    (prop (msg s3) "stl_key") (prop (msg s3) "stl_local") = None →
  s3_downloadObject w (prop (msg s3) "job_id") (prop (msg s3) "config_bucket")
    (prop (msg s3) "config_key") (prop (msg s3) "config_local") = None →
  child_exec w (CuraTemplate w (prop (msg s3) "config_local")
                  (prop (msg s3) "stl_local") (prop (msg s3) "gcode_local")) = None →
  s3_uploadFile w (prop (msg s3) "job_id") (prop (msg s3) "gcode_local")
    (prop (msg s3) "gcode_bucket") (prop (msg s3) "gcode_key") = None →
  (server.processMessage w raw s0).1 = server.Returned (Resolve tt) ∧
  ∃ evs : list Event,
    trace (server.processMessage w raw s0).2 = trace s0 ++ evs ∧
    map kind_of evs =
      [KTrack; KRunning;
       KStatus server.STATE_PRE; KDownload; KDownload;
       KStatus server.STATE_RUN; KExec;
       KStatus server.STATE_POST; KUpload;
       KStatus server.STATE_DONE; KRemove;
       KUnlink; KUnlink; KUnlink; KStats; KStats] ∧
    status_writes evs =
      [server.STATE_PRE; server.STATE_RUN; server.STATE_POST; server.STATE_DONE].
Proof.
  intros Htr Hw Hstl Hcfg Hx Hup.
  rewrite (processMessage_tracked w raw s0 s3 Htr).
  destruct (tracked_start w raw s0 s3 Htr) as (Ht0 & _ & _).
  destruct (front_success w s3 Hw Hstl Hcfg Hx Hup)
    as (s4 & evs & Hfront & Hf & Ht & Hk).
  unfold server.returned. rewrite pipeline_stages. unfold catch_.
  rewrite stages_eq, Hfront.
  rewrite writes_succeed_settles by (by rewrite (prop_same _ _ _ Hf)).
  cbn [fst snd]. split; [done|].
  destruct (finished_facts w s4) as (Htf & _).
  eexists. split.
  { rewrite Htf, Ht, Ht0, <- !app_assoc. reflexivity. }
  assert (Hkinds : map kind_of
    ([ETrackMessage (prop (msg s3) "handle"); ERunningProcessesInc 1]
       ++ evs ++ success_tail w s4) =
    [KTrack; KRunning; KStatus 1; KDownload; KDownload; KStatus 2; KExec;
     KStatus 3; KUpload; KStatus 4; KRemove; KUnlink; KUnlink; KUnlink;
     KStats; KStats]).
  { rewrite !map_app, Hk, success_tail_kinds. reflexivity. }
  split; [exact Hkinds|].
  rewrite status_writes_kinds, Hkinds. reflexivity.
Qed.

Lemma success_writes_states_in_order_witness :
  (server.processMessage Scenario.w_ok Scenario.raw_ok Scenario.s_init).1
    = server.Returned (Resolve tt) ∧
  ∃ evs : list Event,
    trace (server.processMessage Scenario.w_ok Scenario.raw_ok Scenario.s_init).2
      = trace Scenario.s_init ++ evs ∧
    map kind_of evs =
      [KTrack; KRunning;
       KStatus server.STATE_PRE; KDownload; KDownload;
       KStatus server.STATE_RUN; KExec;
       KStatus server.STATE_POST; KUpload;
       KStatus server.STATE_DONE; KRemove;
       KUnlink; KUnlink; KUnlink; KStats; KStats] ∧
    status_writes evs =
      [server.STATE_PRE; server.STATE_RUN; server.STATE_POST; server.STATE_DONE].
Proof.
  apply (success_writes_states_in_order Scenario.w_ok Scenario.raw_ok
           Scenario.s_init
           (chain_start Scenario.w_ok Scenario.raw_ok Scenario.s_init)).
  - eexists _, _. split; [vm_compute; reflexivity|].
    split; [vm_compute; reflexivity|].
    split; [vm_compute; reflexivity|vm_compute; reflexivity].
  - intros op. exists (Some 1). split; reflexivity.
  - reflexivity.
  - reflexivity.
  - reflexivity.
  - reflexivity.
Defined.

(** C2.  A tracked message whose chain rejects with the Canceled signal:
    up to the failure only stage calls were issued; from then on no status
    write is issued, the hourly canceled count is upserted, one [unlink] is
    issued for each of the three local files, and the last call removes the
    message from the queue (it is never requeued).  [jobsCanceled] grows by
    one and no other job counter moves. *)
Theorem canceled_job_is_dropped (w : World) (raw : gmap string string)
    (s0 s3 : St) (e : JsError) :
  tracked w raw s0 s3 →
  (stages w s3).1 = Reject e →
  message e = "CANCELED" →
  (server.processMessage w raw s0).1 = server.Returned (Resolve tt) ∧
  (∃ calls : list Event,
     Forall (fun c => is_stage_call c = true) calls ∧
     trace (stages w s3).2 =
       trace s0 ++ [ETrackMessage (prop (msg s3) "handle"); ERunningProcessesInc 1]
         ++ calls ∧
     trace (server.processMessage w raw s0).2 =
       trace (stages w s3).2
         ++ [EStatsUpdate (hour_id w (stages w s3).2) canceled_inc]
         ++ map EUnlink (locals (msg s3))
         ++ [ERemoveMessage (prop (msg s3) "handle")]) ∧
  status_writes (trace (server.processMessage w raw s0).2)
    = status_writes (trace (stages w s3).2) ∧
  jobsCanceled (server.processMessage w raw s0).2 = jobsCanceled s0 + 1 ∧
  jobsSucceeded (server.processMessage w raw s0).2 = jobsSucceeded s0 ∧
  jobsFailed (server.processMessage w raw s0).2 = jobsFailed s0 ∧
  jobsFailedSlicing (server.processMessage w raw s0).2 = jobsFailedSlicing s0.
Proof.
  intros Htr Hrej He.
  destruct (failure_run w raw s0 s3 e Htr Hrej)
    as (Hrun & (c1 & c2 & c3 & c4) & Hf & calls & Hq & Ht & _).
  destruct (on_failure_canceled w e (stages w s3).2 He)
    as (Hres & Htail & k1 & k2 & k3 & k4 & _).
  rewrite Hrun. cbn [fst snd]. rewrite Hres.
  unfold locals in *. rewrite !(prop_same _ _ _ Hf) in Htail.
  split; [done|]. split; [by exists calls|].
  split.
  { rewrite Htail. unfold status_writes. rewrite !omap_app. cbn.
    by rewrite !app_nil_r. }
  repeat split; congruence.
Qed.

Lemma canceled_job_is_dropped_witness :
  tracked Scenario.w_record_gone Scenario.raw_ok Scenario.s_init
    (chain_start Scenario.w_record_gone Scenario.raw_ok Scenario.s_init) ∧
  (stages Scenario.w_record_gone
     (chain_start Scenario.w_record_gone Scenario.raw_ok Scenario.s_init)).1
    = Reject (Error "CANCELED") ∧
  jobsCanceled
    (server.processMessage Scenario.w_record_gone Scenario.raw_ok Scenario.s_init).2
    = jobsCanceled Scenario.s_init + 1.
Proof.
  assert (Htr : tracked Scenario.w_record_gone Scenario.raw_ok Scenario.s_init
    (chain_start Scenario.w_record_gone Scenario.raw_ok Scenario.s_init)).
  { eexists _, _. split; [vm_compute; reflexivity|].
    split; [vm_compute; reflexivity|].
    split; [vm_compute; reflexivity|vm_compute; reflexivity]. }
  assert (Hrej : (stages Scenario.w_record_gone
     (chain_start Scenario.w_record_gone Scenario.raw_ok Scenario.s_init)).1
    = Reject (Error "CANCELED")) by (vm_compute; reflexivity).
  split; [exact Htr|]. split; [exact Hrej|].
  exact (proj1 (proj2 (proj2 (proj2
    (canceled_job_is_dropped Scenario.w_record_gone Scenario.raw_ok
       Scenario.s_init _ (Error "CANCELED") Htr Hrej eq_refl))))).
Defined.

(** C3.  A tracked message whose slicer is invoked and exits abnormally:
    the chain rejects with the SLICER error whatever the process error
    was; the handler upserts the hourly failed count, issues the FAILED
    write, one [unlink] per local file, and last removes the message from
    the queue (it is never requeued).  FAILED is the last state written;
    [jobsFailedSlicing] grows by one and no other job counter moves. *)
Theorem slicer_failure_is_dropped (w : World) (raw : gmap string string)
    (s0 s3 : St) :
  tracked w raw s0 s3 →
  slicer_fails w s3 →
  (stages w s3).1 = Reject (Error "SLICER") ∧
  (server.processMessage w raw s0).1 = server.Returned (Resolve tt) ∧
  (∃ calls : list Event,
     Forall (fun c => is_stage_call c = true) calls ∧
     trace (stages w s3).2 =
       trace s0 ++ [ETrackMessage (prop (msg s3) "handle"); ERunningProcessesInc 1]
         ++ calls ∧
     trace (server.processMessage w raw s0).2 =
       trace (stages w s3).2
         ++ [EStatsUpdate (hour_id w (stages w s3).2) failed_inc;
             EPrintJobUpdate (prop (msg s3) "job_oid")
               (fail_op (msg (stages w s3).2))]
         ++ map EUnlink (locals (msg s3))
         ++ [ERemoveMessage (prop (msg s3) "handle")]) ∧
  last (status_writes (trace (server.processMessage w raw s0).2))
    = Some server.STATE_FAIL ∧
  jobsFailedSlicing (server.processMessage w raw s0).2 = jobsFailedSlicing s0 + 1 ∧
  jobsSucceeded (server.processMessage w raw s0).2 = jobsSucceeded s0 ∧
  jobsFailed (server.processMessage w raw s0).2 = jobsFailed s0 ∧
  jobsCanceled (server.processMessage w raw s0).2 = jobsCanceled s0.
Proof.
  intros Htr (s4 & s5 & e & Hdl & Hrun & Hx).
  assert (Hrej : (stages w s3).1 = Reject (Error "SLICER")).
  { rewrite stages_eq. unfold front, then_. rewrite Hdl.
    unfold server.spawnSlicer, then_. rewrite Hrun.
    unfold server.new_Date, server.exec, catch_, then_.
    cbn [msg with_msg tick emit].
    change (prop (set_slicing_time ?t ?m) ?k) with (prop m k).
    rewrite Hx. reflexivity. }
  split; [exact Hrej|].
  destruct (failure_run w raw s0 s3 _ Htr Hrej)
    as (Hfin & (c1 & c2 & c3 & c4) & Hf & calls & Hq & Ht & _).
  destruct (on_failure_slicer w (Error "SLICER") (stages w s3).2 eq_refl)
    as (Hres & Htail & k1 & k2 & k3 & k4 & _).
  rewrite Hfin. cbn [fst snd]. rewrite Hres.
  unfold locals in *. rewrite !(prop_same _ _ _ Hf) in Htail.
  split; [done|]. split; [by exists calls|].
  split.
  { rewrite Htail. unfold status_writes. rewrite !omap_app. cbn.
    apply last_snoc. }
  repeat split; congruence.
Qed.

Lemma slicer_failure_is_dropped_witness :
  tracked Scenario.w_slicer_fails Scenario.raw_ok Scenario.s_init
    (chain_start Scenario.w_slicer_fails Scenario.raw_ok Scenario.s_init) ∧
  slicer_fails Scenario.w_slicer_fails
    (chain_start Scenario.w_slicer_fails Scenario.raw_ok Scenario.s_init) ∧
  jobsFailedSlicing
    (server.processMessage Scenario.w_slicer_fails Scenario.raw_ok Scenario.s_init).2
    = jobsFailedSlicing Scenario.s_init + 1.
Proof.
  assert (Htr : tracked Scenario.w_slicer_fails Scenario.raw_ok Scenario.s_init
    (chain_start Scenario.w_slicer_fails Scenario.raw_ok Scenario.s_init)).
  { eexists _, _. split; [vm_compute; reflexivity|].
    split; [vm_compute; reflexivity|].
    split; [vm_compute; reflexivity|vm_compute; reflexivity]. }
  assert (Hsl : slicer_fails Scenario.w_slicer_fails
    (chain_start Scenario.w_slicer_fails Scenario.raw_ok Scenario.s_init)).
  { eexists _, _, _. split; [vm_compute; reflexivity|].
    split; [vm_compute; reflexivity|reflexivity]. }
  split; [exact Htr|]. split; [exact Hsl|].
  exact (proj1 (proj2 (proj2 (proj2 (proj2
    (slicer_failure_is_dropped Scenario.w_slicer_fails Scenario.raw_ok
       Scenario.s_init _ Htr Hsl)))))).
Defined.

(** C4.  A tracked message whose chain rejects with an error that is
    neither CANCELED nor SLICER: the handler issues the ERRORED write whose
    detail is the error text after the prefix [Error; ], one [unlink] per
    local file, and last requeues the message (no removal is ever issued).
    [jobsFailed] grows by one and no other job counter moves. *)
Theorem other_failure_is_requeued (w : World) (raw : gmap string string)
    (s0 s3 : St) (e : JsError) :
  tracked w raw s0 s3 →
  (stages w s3).1 = Reject e →
  message e ≠ "CANCELED" →
  message e ≠ "SLICER" →
  (server.processMessage w raw s0).1 = server.Returned (Resolve tt) ∧
  (∃ calls : list Event,
     Forall (fun c => is_stage_call c = true) calls ∧
     trace (stages w s3).2 =
       trace s0 ++ [ETrackMessage (prop (msg s3) "handle"); ERunningProcessesInc 1]
         ++ calls ∧
     trace (server.processMessage w raw s0).2 =
       trace (stages w s3).2
         ++ [EPrintJobUpdate (prop (msg s3) "job_oid")
               (err_op (msg (stages w s3).2) (JString (message e)))]
         ++ map EUnlink (locals (msg s3))
         ++ [ERequeueMessage (prop (msg s3) "handle")]) ∧
  status (err_op (msg (stages w s3).2) (JString (message e))) = server.STATE_ERR ∧
  progressDetail (err_op (msg (stages w s3).2) (JString (message e)))
    = "Error; " +:+ message e ∧
  jobsFailed (server.processMessage w raw s0).2 = jobsFailed s0 + 1 ∧
  jobsSucceeded (server.processMessage w raw s0).2 = jobsSucceeded s0 ∧
  jobsFailedSlicing (server.processMessage w raw s0).2 = jobsFailedSlicing s0 ∧
  jobsCanceled (server.processMessage w raw s0).2 = jobsCanceled s0.
Proof.
  intros Htr Hrej Hc Hs.
  destruct (failure_run w raw s0 s3 e Htr Hrej)
    as (Hfin & (c1 & c2 & c3 & c4) & Hf & calls & Hq & Ht & _).
  destruct (on_failure_other w e (stages w s3).2 Hc Hs)
    as (Hres & Htail & k1 & k2 & k3 & k4 & _).
  rewrite Hfin. cbn [fst snd]. rewrite Hres.
  unfold locals in *. rewrite !(prop_same _ _ _ Hf) in Htail.
  split; [done|]. split; [by exists calls|].
  split; [done|]. split; [done|].
  repeat split; congruence.
Qed.

Lemma other_failure_is_requeued_witness :
  tracked Scenario.w_upload_fails Scenario.raw_ok Scenario.s_init
    (chain_start Scenario.w_upload_fails Scenario.raw_ok Scenario.s_init) ∧
  (stages Scenario.w_upload_fails
     (chain_start Scenario.w_upload_fails Scenario.raw_ok Scenario.s_init)).1
    = Reject (Error "RequestTimeout") ∧
  jobsFailed
    (server.processMessage Scenario.w_upload_fails Scenario.raw_ok Scenario.s_init).2
    = jobsFailed Scenario.s_init + 1.
Proof.
  assert (Htr : tracked Scenario.w_upload_fails Scenario.raw_ok Scenario.s_init
    (chain_start Scenario.w_upload_fails Scenario.raw_ok Scenario.s_init)).
  { eexists _, _. split; [vm_compute; reflexivity|].
    split; [vm_compute; reflexivity|].
    split; [vm_compute; reflexivity|vm_compute; reflexivity]. }
  assert (Hrej : (stages Scenario.w_upload_fails
     (chain_start Scenario.w_upload_fails Scenario.raw_ok Scenario.s_init)).1
    = Reject (Error "RequestTimeout")) by (vm_compute; reflexivity).
  split; [exact Htr|]. split; [exact Hrej|].
  refine (proj1 (proj2 (proj2 (proj2 (proj2
    (other_failure_is_requeued Scenario.w_upload_fails Scenario.raw_ok
       Scenario.s_init _ (Error "RequestTimeout") Htr Hrej _ _)))))).
  - discriminate.
  - discriminate.
Defined.

(** C5, as stated, fails: a write that the document store rejects with an
    error whose message is SLICER is a write failure other than zero
    matched rows, and [updateState] raises it instead of swallowing it. *)
Lemma write_error_named_slicer_is_raised :
  PrintJob_update Scenario.w_write_rejects_slicer
    (prop (msg (chain_start Scenario.w_write_rejects_slicer Scenario.raw_ok
                  Scenario.s_init)) "job_oid")
    (done_op (msg (chain_start Scenario.w_write_rejects_slicer Scenario.raw_ok
                     Scenario.s_init)))
    = UpdateError (Error "SLICER") ∧
  (server.updateState Scenario.w_write_rejects_slicer server.STATE_DONE
     server.ErrAbsent
     (chain_start Scenario.w_write_rejects_slicer Scenario.raw_ok Scenario.s_init)).1
    = Reject (Error "SLICER").
Proof. split; vm_compute; reflexivity. Qed.

(** C5, amended.  [updateState] issues one write and settles by its
    outcome ([write_settles]): zero matched rows reject with CANCELED; a
    rejected write whose error message is CANCELED or SLICER is raised
    unchanged; every other rejected write is swallowed and the call
    resolves.  So when upload has finished and the DONE write is rejected
    with any other error, the pipeline still succeeds: the message is
    removed, the files are unlinked, the stats are upserted and
    [jobsSucceeded] grows by one. *)
Theorem status_write_failure_semantics (w : World) :
  (∀ state err s st txt det,
     server.describe state err = Some (st, txt, det) →
     (server.updateState w state err s).1 =
       match PrintJob_update w (prop (msg s) "job_oid")
               (server.status_op (msg s) st txt det) with
       | UpdateResult n =>
           if server.no_row_matched n then Reject (Error "CANCELED")
           else Resolve tt
       | UpdateError e =>
           if String.eqb (message e) "CANCELED" || String.eqb (message e) "SLICER"
           then Reject e else Resolve tt
       end ∧
     trace (server.updateState w state err s).2 =
       trace s ++ [EPrintJobUpdate (prop (msg s) "job_oid")
                     (server.status_op (msg s) st txt det)]) ∧
  (∀ raw s0 s3 s4 e,
     tracked w raw s0 s3 →
     front w s3 = (Resolve tt, s4) →
     PrintJob_update w (prop (msg s4) "job_oid") (done_op (msg s4))
       = UpdateError e →
     message e ≠ "CANCELED" →
     message e ≠ "SLICER" →
     (server.processMessage w raw s0).1 = server.Returned (Resolve tt) ∧
     trace (server.processMessage w raw s0).2 = trace s4 ++ success_tail w s4 ∧
     jobsSucceeded (server.processMessage w raw s0).2 = jobsSucceeded s0 + 1).
Proof.
  split.
  - intros state err s st txt det Hd.
    rewrite (updateState_eq w _ _ _ _ _ _ Hd). split; reflexivity.
  - intros raw s0 s3 s4 e Htr Hfront Hup Hc Hs.
    destruct (tracked_start w raw s0 s3 Htr) as (_ & (c1 & _) & _).
    pose proof (front_step w s3) as Hstep. rewrite Hfront in Hstep.
    destruct Hstep as ((d1 & _) & _). cbn [snd] in d1.
    rewrite (processMessage_tracked w raw s0 s3 Htr), pipeline_stages.
    unfold server.returned, catch_. rewrite stages_eq, Hfront, Hup.
    apply String.eqb_neq in Hc, Hs. cbn [write_settles]. rewrite Hc, Hs.
    cbn [orb fst snd].
    destruct (finished_facts w s4) as (Ht & Hj & _).
    split; [done|]. split; [done|]. congruence.
Qed.

Lemma status_write_failure_semantics_witness :
  PrintJob_update Scenario.w_done_write_drops
    (JString "59f1c0ffee59f1c0ffee0000")
    (done_op (msg (front Scenario.w_done_write_drops
                     (chain_start Scenario.w_done_write_drops Scenario.raw_ok
                        Scenario.s_init)).2))
    = UpdateError (Error "ECONNRESET") ∧
  (server.processMessage Scenario.w_done_write_drops Scenario.raw_ok
     Scenario.s_init).1 = server.Returned (Resolve tt) ∧
  jobsSucceeded
    (server.processMessage Scenario.w_done_write_drops Scenario.raw_ok
       Scenario.s_init).2 = jobsSucceeded Scenario.s_init + 1.
Proof.
  assert (Htr : tracked Scenario.w_done_write_drops Scenario.raw_ok Scenario.s_init
    (chain_start Scenario.w_done_write_drops Scenario.raw_ok Scenario.s_init)).
  { eexists _, _. split; [vm_compute; reflexivity|].
    split; [vm_compute; reflexivity|].
    split; [vm_compute; reflexivity|vm_compute; reflexivity]. }
  split; [vm_compute; reflexivity|].
  pose proof (proj2 (status_write_failure_semantics Scenario.w_done_write_drops)
    Scenario.raw_ok Scenario.s_init _
    (front Scenario.w_done_write_drops
       (chain_start Scenario.w_done_write_drops Scenario.raw_ok Scenario.s_init)).2
    (Error "ECONNRESET") Htr) as H.
  destruct H as (H1 & _ & H3).
  - vm_compute. reflexivity.
  - vm_compute. reflexivity.
  - discriminate.
  - discriminate.
  - split; [exact H1|exact H3].
Defined.

(** The loop over [mustHave] never reports [job_oid]: the property is
    assigned, from whatever the object-id constructor returns, before the
    loop looks for it. *)
Lemma job_oid_never_reported (raw : gmap string string) (oid : JsVal) :
  server.first_missing server.mustHave
    (set_prop "job_oid" oid (server.cloneDeep raw)) ≠ Some "job_oid".
Proof.
  assert (H : has_prop (set_prop "job_oid" oid (server.cloneDeep raw)) "job_oid"
              = true).
  { unfold has_prop, set_prop. cbn [fields]. rewrite lookup_insert_eq.
    apply bool_decide_eq_true. by eexists. }
  unfold server.first_missing, server.mustHave. rewrite H.
  repeat case_match; congruence.
Qed.

(** C6, the code at three requests that lack a required field.
    Without [stl_file], record present: the ERRORED write carries the
    detail [Error; undefined] (the text is passed as a string, which has no
    [message]), then the message is removed.  Without [job_oid]: nothing is
    reported missing; the message is tracked, the PREPARING write finds no
    record under the generated id, and the job is counted as canceled with
    no ERRORED write.  Without [stl_file], record gone: the ERRORED write is
    the only call, the message is neither removed nor requeued. *)
Theorem requests_lacking_a_field :
  trace (server.processMessage Scenario.w_ok Scenario.raw_no_stl
           Scenario.s_init).2
    = [EPrintJobUpdate (JString "59f1c0ffee59f1c0ffee0000")
         {| status := server.STATE_ERR;
            jobID := JString "P3D0042-17";
            progress := "Error";
            progressDetail := "Error; undefined";
            downloadTime := (0, 0, 0);
            uploadTime := (0, 0, 0);
            slicingTime := (0, 0, 0);
            gcode_file := JString "waiting" |};
       ERemoveMessage (JString "receipt-1")] ∧
  server.first_missing server.mustHave
    (set_prop "job_oid" (JString "59f1c0ffee59f1c0ffee0001")
       (server.cloneDeep Scenario.raw_no_oid)) = None ∧
  map kind_of
    (trace (server.processMessage Scenario.w_only_known_record
              Scenario.raw_no_oid Scenario.s_init).2)
    = [KTrack; KRunning; KStatus server.STATE_PRE; KStats;
       KUnlink; KUnlink; KUnlink; KRemove] ∧
  jobsCanceled (server.processMessage Scenario.w_only_known_record
                  Scenario.raw_no_oid Scenario.s_init).2 = 1 ∧
  map kind_of
    (trace (server.processMessage Scenario.w_record_gone Scenario.raw_no_stl
              Scenario.s_init).2)
    = [KStatus server.STATE_ERR].
Proof. repeat split; vm_compute; reflexivity. Qed.

(** C8, the code at a slicer failure, at a cancellation and at a success:
    the two failure dispositions upsert the hourly document only, with
    their own count and no [slicing_seconds]; only the success upserts both
    the hourly and the lifetime (all-zero id) document. *)
Theorem stats_upserts_by_disposition :
  stats_writes
    (trace (server.processMessage Scenario.w_slicer_fails Scenario.raw_ok
              Scenario.s_init).2)
    = [(1509580800, failed_inc)] ∧
  stats_writes
    (trace (server.processMessage Scenario.w_record_gone Scenario.raw_ok
              Scenario.s_init).2)
    = [(1509580800, canceled_inc)] ∧
  stats_writes
    (trace (server.processMessage Scenario.w_ok Scenario.raw_ok
              Scenario.s_init).2)
    = [(1509580800,
        {| slicing_succeeded := Some 1; slicing_failed := None;
           slicing_canceled := None; slicing_seconds := Some (Qmake 5000 1000) |});
       (lib.objectIdTimeZero,
        {| slicing_succeeded := Some 1; slicing_failed := None;
           slicing_canceled := None; slicing_seconds := Some (Qmake 5000 1000) |})].
Proof. repeat split; vm_compute; reflexivity. Qed.

(** C9, the code at a single file name whose file is absent: the
    rejection of [unlink] is the result of [removeFiles]; the same name in
    an array of one is swallowed. *)
Theorem removeFiles_single_name_rejects :
  lib.removeFiles Scenario.w_no_files (JString "P3D0042-17")
    (lib.FilesString "/working/aaaaaaaaaaaaaaaaaaaa-cube.stl") Scenario.s_init
    = (Reject (Error "ENOENT: no such file or directory"),
       emit (EUnlink (JString "/working/aaaaaaaaaaaaaaaaaaaa-cube.stl"))
         Scenario.s_init) ∧
  (lib.removeFiles Scenario.w_no_files (JString "P3D0042-17")
     (lib.FilesArray [JString "/working/aaaaaaaaaaaaaaaaaaaa-cube.stl"])
     Scenario.s_init).1 = Resolve tt.
Proof. split; reflexivity. Qed.

(** C7, as stated, fails on the success branch: [notifyDone] removes the
    message from the queue before [cleanFiles] issues the first [unlink]. *)
Lemma success_removes_before_cleanup :
  map kind_of
    (trace (server.processMessage Scenario.w_ok Scenario.raw_ok
              Scenario.s_init).2)
    = [KTrack; KRunning; KStatus 1; KDownload; KDownload; KStatus 2; KExec;
       KStatus 3; KUpload; KStatus 4; KRemove; KUnlink; KUnlink; KUnlink;
       KStats; KStats] ∧
  cleanup_first
    (trace (server.processMessage Scenario.w_ok Scenario.raw_ok
              Scenario.s_init).2) = false.
Proof. split; vm_compute; reflexivity. Qed.

(** C7, amended.  For a tracked message: when the chain rejects (canceled,
    slicer failure, any other error), the handler issues one [unlink] for
    each of the three local files and then, as its last call, the queue
    disposition; no [unlink] and no disposition is issued before.  When the
    chain resolves, the queue removal is issued first and the three
    [unlink] calls follow it. *)
Theorem cleanup_and_disposition_order (w : World) (raw : gmap string string)
    (s0 s3 : St) :
  tracked w raw s0 s3 →
  (∀ e, (stages w s3).1 = Reject e →
     ∃ (before : list Event) (d : Event),
       trace (server.processMessage w raw s0).2 =
         trace s0 ++ before ++ map EUnlink (locals (msg s3)) ++ [d] ∧
       (d = ERemoveMessage (prop (msg s3) "handle") ∨
        d = ERequeueMessage (prop (msg s3) "handle")) ∧
       forallb (fun c => negb (is_disposition c || is_unlink c)) before = true) ∧
  ((stages w s3).1 = Resolve tt →
     ∃ before after : list Event,
       trace (server.processMessage w raw s0).2 =
         trace s0 ++ before ++ [ERemoveMessage (prop (msg s3) "handle")]
           ++ map EUnlink (locals (msg s3)) ++ after ∧
       forallb (fun c => negb (is_disposition c || is_unlink c)) before = true ∧
       map kind_of after = [KStats; KStats]).
Proof.
  intros Htr. split.
  - intros e Hrej.
    destruct (failure_run w raw s0 s3 e Htr Hrej)
      as (Hfin & _ & Hf & calls & Hq & Ht & _).
    apply stage_calls_not_final in Hq.
    rewrite Hfin. cbn [snd].
    destruct (String.eqb_spec (message e) "CANCELED") as [Hc|Hc];
      [|destruct (String.eqb_spec (message e) "SLICER") as [Hs|Hs]].
    + destruct (on_failure_canceled w e (stages w s3).2 Hc) as (_ & Htail & _).
      unfold locals in *. rewrite !(prop_same _ _ _ Hf) in Htail.
      exists ([ETrackMessage (prop (msg s3) "handle"); ERunningProcessesInc 1]
                ++ calls
                ++ [EStatsUpdate (hour_id w (stages w s3).2) canceled_inc]),
             (ERemoveMessage (prop (msg s3) "handle")).
      split; [by rewrite Htail, Ht, <- !app_assoc|].
      split; [by left|].
      rewrite !forallb_app, Hq. reflexivity.
    + destruct (on_failure_slicer w e (stages w s3).2 Hs) as (_ & Htail & _).
      unfold locals in *. rewrite !(prop_same _ _ _ Hf) in Htail.
      exists ([ETrackMessage (prop (msg s3) "handle"); ERunningProcessesInc 1]
                ++ calls
                ++ [EStatsUpdate (hour_id w (stages w s3).2) failed_inc;
                    EPrintJobUpdate (prop (msg s3) "job_oid")
                      (fail_op (msg (stages w s3).2))]),
             (ERemoveMessage (prop (msg s3) "handle")).
      split; [by rewrite Htail, Ht, <- !app_assoc|].
      split; [by left|].
      rewrite !forallb_app, Hq. reflexivity.
    + destruct (on_failure_other w e (stages w s3).2 Hc Hs) as (_ & Htail & _).
      unfold locals in *. rewrite !(prop_same _ _ _ Hf) in Htail.
      exists ([ETrackMessage (prop (msg s3) "handle"); ERunningProcessesInc 1]
                ++ calls
                ++ [EPrintJobUpdate (prop (msg s3) "job_oid")
                      (err_op (msg (stages w s3).2) (JString (message e)))]),
             (ERequeueMessage (prop (msg s3) "handle")).
      split; [by rewrite Htail, Ht, <- !app_assoc|].
      split; [by right|].
      rewrite !forallb_app, Hq. reflexivity.
  - intros Hres.
    destruct (success_run w raw s0 s3 Htr Hres)
      as (s4 & calls & _ & Hfin & _ & Hf & Hq & Ht & _).
    apply stage_calls_not_final in Hq.
    destruct (finished_facts w s4) as (Htail & _).
    rewrite Hfin. cbn [snd]. unfold success_tail, locals in *.
    rewrite !(prop_same _ _ _ Hf) in Htail.
    exists ([ETrackMessage (prop (msg s3) "handle"); ERunningProcessesInc 1]
              ++ calls
              ++ [EPrintJobUpdate (prop (msg s3) "job_oid") (done_op (msg s4))]),
           [EStatsUpdate (hour_id w s4) (success_inc (msg s4));
            EStatsUpdate lib.objectIdTimeZero (success_inc (msg s4))].
    split; [by rewrite Htail, Ht, <- !app_assoc|].
    split; [|reflexivity].
    rewrite !forallb_app, Hq. reflexivity.
Qed.
Lemma cleanup_and_disposition_order_witness :
  tracked Scenario.w_slicer_fails Scenario.raw_ok Scenario.s_init
    (chain_start Scenario.w_slicer_fails Scenario.raw_ok Scenario.s_init) ∧
  (stages Scenario.w_slicer_fails
     (chain_start Scenario.w_slicer_fails Scenario.raw_ok Scenario.s_init)).1
    = Reject (Error "SLICER") ∧
  ∃ (before : list Event) (d : Event),
    trace (server.processMessage Scenario.w_slicer_fails Scenario.raw_ok
             Scenario.s_init).2 =
      trace Scenario.s_init ++ before
        ++ map EUnlink
             (locals (msg (chain_start Scenario.w_slicer_fails Scenario.raw_ok
                             Scenario.s_init)))
        ++ [d] ∧
    (d = ERemoveMessage
           (prop (msg (chain_start Scenario.w_slicer_fails Scenario.raw_ok
                         Scenario.s_init)) "handle") ∨
     d = ERequeueMessage
           (prop (msg (chain_start Scenario.w_slicer_fails Scenario.raw_ok
                         Scenario.s_init)) "handle")) ∧
    forallb (fun c => negb (is_disposition c || is_unlink c)) before = true.
Proof.
  assert (Htr : tracked Scenario.w_slicer_fails Scenario.raw_ok Scenario.s_init
    (chain_start Scenario.w_slicer_fails Scenario.raw_ok Scenario.s_init)).
  { eexists _, _. split; [vm_compute; reflexivity|].
    split; [vm_compute; reflexivity|].
    split; [vm_compute; reflexivity|vm_compute; reflexivity]. }
  assert (Hrej : (stages Scenario.w_slicer_fails
     (chain_start Scenario.w_slicer_fails Scenario.raw_ok Scenario.s_init)).1
    = Reject (Error "SLICER")) by (vm_compute; reflexivity).
  split; [exact Htr|]. split; [exact Hrej|].
  exact (proj1 (cleanup_and_disposition_order Scenario.w_slicer_fails
                  Scenario.raw_ok Scenario.s_init _ Htr)
           (Error "SLICER") Hrej).
Defined.

(** C10, as stated, fails: a job whose slicer succeeded and whose upload
    then failed is a failed job (requeued, counted in [jobsFailed]), and
    its five seconds of slicing are in [totalSlicingTime]. *)
Lemma failed_job_adds_slicing_seconds :
  jobsSucceeded
    (server.processMessage Scenario.w_upload_fails Scenario.raw_ok
       Scenario.s_init).2 = 0 ∧
  jobsFailed
    (server.processMessage Scenario.w_upload_fails Scenario.raw_ok
       Scenario.s_init).2 = 1 ∧
  totalSlicingTime
    (server.processMessage Scenario.w_upload_fails Scenario.raw_ok
       Scenario.s_init).2
    = Qplus (totalSlicingTime Scenario.s_init) (Qmake 5000 1000) ∧
  Qeq_bool
    (totalSlicingTime
       (server.processMessage Scenario.w_upload_fails Scenario.raw_ok
          Scenario.s_init).2)
    (totalSlicingTime Scenario.s_init) = false.
Proof. repeat split; vm_compute; reflexivity. Qed.

(** C10, amended.  For every message: [totalSlicingTime] is left as it was
    unless a slicer invocation that succeeded is among the calls of this
    run (whatever happens to the job afterwards); and a stats upsert that
    carries [slicing_seconds] is issued only by a run that ends in success
    ([jobsSucceeded] grown by one). *)
Theorem slicing_seconds_sources (w : World) (raw : gmap string string) (s0 : St) :
  ∃ evs : list Event,
    trace (server.processMessage w raw s0).2 = trace s0 ++ evs ∧
    (totalSlicingTime (server.processMessage w raw s0).2 = totalSlicingTime s0 ∨
     ∃ cmd, EExec cmd ∈ evs ∧ child_exec w cmd = None) ∧
    (∀ id inc,
       EStatsUpdate id inc ∈ evs → is_Some (slicing_seconds inc) →
       jobsSucceeded (server.processMessage w raw s0).2 = jobsSucceeded s0 + 1).
Proof.
  destruct (ObjectId w (prop (server.cloneDeep raw) "job_oid")) as [oid|] eqn:Hoid.
  2:{ unfold server.processMessage. rewrite Hoid. exists []. cbn.
      rewrite app_nil_r. split; [done|]. split; [by left|].
      intros id inc Hin. by apply elem_of_nil in Hin. }
  destruct (server.first_missing server.mustHave
              (set_prop "job_oid" oid (server.cloneDeep raw))) as [k|] eqn:Hmiss.
  { unfold server.processMessage. rewrite Hoid. cbn [msg with_msg]. rewrite Hmiss.
    unfold server.returned. cbn [snd].
    match goal with |- context [server.reject_request w ?t ?s] =>
      destruct (reject_request_run w t s) as (_ & (c1 & _) & Htot & evs & Ht & Hq) end.
    exists evs. split; [exact Ht|]. split; [left; exact Htot|].
    intros id inc Hin. by apply (no_stats_among _ _ _ Hq) in Hin. }
  pose proof (parse_urls_quiet w
    (with_msg (fun _ => set_prop "job_oid" oid (server.cloneDeep raw)) s0)) as Hp.
  destruct (server.parse_urls w
    (with_msg (fun _ => set_prop "job_oid" oid (server.cloneDeep raw)) s0))
    as [[e|] s1] eqn:Hparse; cbn [snd] in Hp;
    destruct Hp as (Hpt & (p1 & p2 & p3 & p4) & Hptot);
    cbn in Hpt, Hptot, p1, p2, p3, p4.
  { unfold server.processMessage. rewrite Hoid. cbn [msg with_msg].
    rewrite Hmiss, Hparse. unfold server.returned. cbn [snd].
    match goal with |- context [server.reject_request w ?t ?s] =>
      destruct (reject_request_run w t s) as (_ & (c1 & _) & Htot & evs & Ht & Hq) end.
    exists evs. split; [by rewrite Ht, Hpt|]. split; [left; congruence|].
    intros id inc Hin. by apply (no_stats_among _ _ _ Hq) in Hin. }
  assert (Htr : tracked w raw s0
    (emit (ERunningProcessesInc 1)
       (emit (ETrackMessage (prop (msg s1) "handle")) s1))).
  { by exists oid, s1. }
  set (s3 := emit (ERunningProcessesInc 1)
       (emit (ETrackMessage (prop (msg s1) "handle")) s1)) in *.
  destruct (stages w s3).1 as [[]|e] eqn:Hst.
  - destruct (success_run w raw s0 s3 Htr Hst)
      as (s4 & calls & _ & Hfin & (c1 & _) & Hf & Hq & Ht & Hs).
    destruct (finished_facts w s4) as (Htail & Hj & _ & _ & _ & Htot & _).
    rewrite Hfin. cbn [snd].
    exists ([ETrackMessage (prop (msg s3) "handle"); ERunningProcessesInc 1]
              ++ calls ++ success_tail w s4).
    split; [by rewrite Htail, Ht, <- !app_assoc|].
    split.
    { rewrite Htot. destruct Hs as [Hs|(cmd & Hin & Hok)]; [by left|right].
      exists cmd. split; [|done]. set_solver. }
    intros _ _ _ _. congruence.
  - destruct (failure_run w raw s0 s3 e Htr Hst)
      as (Hfin & (c1 & _) & Hf & calls & Hq & Ht & Hs).
    apply stage_calls_not_final in Hq as Hq'.
    rewrite Hfin. cbn [snd].
    assert (Hcalls : ∀ id inc, EStatsUpdate id inc ∉ calls).
    { intros id inc Hin. rewrite Forall_forall in Hq. by apply Hq in Hin. }
    destruct (String.eqb_spec (message e) "CANCELED") as [Hc|Hc];
      [|destruct (String.eqb_spec (message e) "SLICER") as [Hsl|Hsl]].
    + destruct (on_failure_canceled w e (stages w s3).2 Hc)
        as (_ & Htail & _ & _ & _ & _ & Htot).
      eexists. split; [rewrite Htail, Ht, <- !app_assoc; reflexivity|].
      split.
      { rewrite Htot. destruct Hs as [Hs|(cmd & Hin & Hok)]; [by left|right].
        exists cmd. split; [|done]. set_solver. }
      intros id inc Hin [q Hq2].
      rewrite !elem_of_app, !elem_of_cons, list_elem_of_fmap in Hin.
      destruct Hin as [[Hin|[Hin|Hin]]|[Hin|[[Hin|Hin]|[(f & Hin & _)|[Hin|Hin]]]]];
        try discriminate; try (by apply elem_of_nil in Hin);
        try (by apply Hcalls in Hin).
      injection Hin as _ ->. discriminate.
    + destruct (on_failure_slicer w e (stages w s3).2 Hsl)
        as (_ & Htail & _ & _ & _ & _ & Htot).
      eexists. split; [rewrite Htail, Ht, <- !app_assoc; reflexivity|].
      split.
      { rewrite Htot. destruct Hs as [Hs|(cmd & Hin & Hok)]; [by left|right].
        exists cmd. split; [|done]. set_solver. }
      intros id inc Hin [q Hq2].
      rewrite !elem_of_app, !elem_of_cons, list_elem_of_fmap in Hin.
      destruct Hin as [[Hin|[Hin|Hin]]|[Hin|[[Hin|[Hin|Hin]]|[(f & Hin & _)|[Hin|Hin]]]]];
        try discriminate; try (by apply elem_of_nil in Hin);
        try (by apply Hcalls in Hin).
      injection Hin as _ ->. discriminate.
    + destruct (on_failure_other w e (stages w s3).2 Hc Hsl)
        as (_ & Htail & _ & _ & _ & _ & Htot).
      eexists. split; [rewrite Htail, Ht, <- !app_assoc; reflexivity|].
      split.
      { rewrite Htot. destruct Hs as [Hs|(cmd & Hin & Hok)]; [by left|right].
        exists cmd. split; [|done]. set_solver. }
      intros id inc Hin [q Hq2].
      rewrite !elem_of_app, !elem_of_cons, list_elem_of_fmap in Hin.
      destruct Hin as [[Hin|[Hin|Hin]]|[Hin|[[Hin|Hin]|[(f & Hin & _)|[Hin|Hin]]]]];
        try discriminate; try (by apply elem_of_nil in Hin);
        try (by apply Hcalls in Hin).
Qed.

(** ** Further properties of the helpers and of the pipeline *)

(** X1.  Given an array of names, [removeFiles] resolves whatever [unlink]
    answers, having issued exactly one [unlink] per element, in the order of
    the array; the message and the job counters are untouched. *)
Theorem removeFiles_array_unlinks_each (w : World) (logid : JsVal)
    (files : list JsVal) (s : St) :
  (lib.removeFiles w logid (lib.FilesArray files) s).1 = Resolve tt ∧
  trace (lib.removeFiles w logid (lib.FilesArray files) s).2
    = trace s ++ map EUnlink files ∧
  msg (lib.removeFiles w logid (lib.FilesArray files) s).2 = msg s ∧
  same_counts s (lib.removeFiles w logid (lib.FilesArray files) s).2.
Proof.
  rewrite removeFiles_array. cbn [fst snd].
  destruct (unlink_all_frame files s) as (Hm & _ & c1 & c2 & c3 & c4 & _).
  split; [done|]. split; [apply trace_unlink_all|]. split; [done|].
  by repeat split.
Qed.

(** X2.  [removeFiles] rejects in two ways only: with its invalid-arguments
    error when the argument is neither nothing, a string nor an array, and
    with the error of [unlink] when a single non-empty name is given as a
    string and its deletion fails. *)
Theorem removeFiles_rejects_iff (w : World) (logid : JsVal)
    (files : lib.FilesArg) (s : St) (e : JsError) :
  (lib.removeFiles w logid files s).1 = Reject e ↔
  (files = lib.FilesOther ∧
   e = Error "removeFiles() called with invalid arguments") ∨
  (∃ f, files = lib.FilesString f ∧ f ≠ EmptyString ∧
        fs_unlink w (JString f) = Some e).
Proof.
  destruct files as [|f|l|].
  - cbn. split; [discriminate|]. intros [[? _]|(f & ? & _)]; discriminate.
  - destruct (String.eqb_spec f EmptyString) as [->|Hf].
    + cbn. split; [discriminate|].
      intros [[? _]|(f & Heq & Hne & _)]; [discriminate|]. by injection Heq as <-.
    + rewrite (removeFiles_string w logid f s Hf). unfold lib.unlink.
      split.
      * intros H. right. exists f. split; [done|]. split; [done|].
        destruct (fs_unlink w (JString f)); cbn in H; [congruence|discriminate].
      * intros [[? _]|(g & Heq & _ & Hu)]; [discriminate|].
        injection Heq as <-. by rewrite Hu.
  - rewrite removeFiles_array. cbn. split; [discriminate|].
    intros [[? _]|(f & ? & _)]; discriminate.
  - cbn. split.
    + intros H. left. split; [done|]. congruence.
    + intros [[_ ->]|(f & ? & _)]; [done|discriminate].
Qed.

Lemma append_cancel (a x y : string) : a +:+ x = a +:+ y → x = y.
Proof. induction a as [|c a IH]; cbn; [done|]. intros H. injection H as H. auto. Qed.

Lemma parseUrl_throws_iff_aux (w : World) (workingDir key : string) (s : St) :
  ((lib.parseUrl w workingDir key s).1 = None ↔
   key ≠ EmptyString ∧
   ∃ url pathname,
     fields (msg s) !! (key +:+ "_file") = Some (JString url) ∧
     URL_pathname w url = Some pathname) ∧
  ((lib.parseUrl w workingDir key s).1 = None ∨
   (lib.parseUrl w workingDir key s).2 = s).
Proof.
  unfold lib.parseUrl, lib.isEmpty, has_prop, prop.
  destruct (String.eqb_spec key EmptyString) as [->|Hk].
  { cbn. split; [|by right]. split; [discriminate|]. by intros [? _]. }
  destruct (fields (msg s) !! (key +:+ "_file")) as [[|url]|] eqn:Hl; cbn.
  - split; [|by right]. split; [discriminate|].
    intros (_ & url & p & ? & _). discriminate.
  - destruct (URL_pathname w url) as [p|] eqn:Hu; cbn.
    + split; [|by left]. split; [|done]. intros _. split; [done|]. by exists url, p.
    + split; [|by right]. split; [discriminate|].
      intros (_ & url' & p & Heq & Hp). injection Heq as <-. congruence.
  - split; [|by right]. split; [discriminate|].
    intros (_ & url & p & ? & _). discriminate.
Qed.

(** X3.  [parseUrl] returns normally exactly when the key is not empty,
    the message holds a string under [key_file] and that URL has a path;
    when it throws it has changed nothing (no property set, no random
    string drawn). *)
Theorem parseUrl_throws_iff (w : World) (workingDir key : string) (s : St) :
  ((lib.parseUrl w workingDir key s).1 = None ↔
   key ≠ EmptyString ∧
   ∃ url pathname,
     fields (msg s) !! (key +:+ "_file") = Some (JString url) ∧
     URL_pathname w url = Some pathname) ∧
  ((lib.parseUrl w workingDir key s).1 = None ∨
   (lib.parseUrl w workingDir key s).2 = s).
Proof. apply parseUrl_throws_iff_aux. Qed.

Lemma parseUrl_success (w : World) (workingDir key url pathname : string)
    (s : St) :
  key ≠ EmptyString →
  fields (msg s) !! (key +:+ "_file") = Some (JString url) →
  URL_pathname w url = Some pathname →
  prop (msg (lib.parseUrl w workingDir key s).2) (key +:+ "_bucket")
    = lib.at_index (lib.split_slash (p_dir (path_parse w pathname))) 1 ∧
  prop (msg (lib.parseUrl w workingDir key s).2) (key +:+ "_key")
    = JString (path_format w
        {| p_root := p_root (path_parse w pathname);
           p_dir := String.concat "/"
                      (drop 2 (lib.split_slash (p_dir (path_parse w pathname))));
           p_base := p_base (path_parse w pathname);
           p_ext := p_ext (path_parse w pathname);
           p_name := p_name (path_parse w pathname) |}) ∧
  prop (msg (lib.parseUrl w workingDir key s).2) (key +:+ "_local")
    = JString (workingDir +:+ "/" +:+ alphaNumMixed w (draws s) +:+ "-"
               +:+ p_base (path_parse w pathname)) ∧
  (∀ k, k ≠ key +:+ "_bucket" → k ≠ key +:+ "_key" → k ≠ key +:+ "_local" →
        fields (msg (lib.parseUrl w workingDir key s).2) !! k = fields (msg s) !! k) ∧
  draws (lib.parseUrl w workingDir key s).2 = S (draws s) ∧
  download_time (msg (lib.parseUrl w workingDir key s).2) = download_time (msg s) ∧
  upload_time (msg (lib.parseUrl w workingDir key s).2) = upload_time (msg s) ∧
  slicing_time (msg (lib.parseUrl w workingDir key s).2) = slicing_time (msg s).
Proof.
  intros Hk Hl Hu.
  assert (Hbk : key +:+ "_bucket" ≠ key +:+ "_key")
    by (intros H; apply append_cancel in H; discriminate).
  assert (Hbl : key +:+ "_bucket" ≠ key +:+ "_local")
    by (intros H; apply append_cancel in H; discriminate).
  assert (Hkl : key +:+ "_key" ≠ key +:+ "_local")
    by (intros H; apply append_cancel in H; discriminate).
  unfold lib.parseUrl, lib.isEmpty, has_prop, prop.
  apply String.eqb_neq in Hk. rewrite Hk, Hl. cbn. rewrite Hu. cbn.
  split. { by rewrite lookup_insert_ne, lookup_insert_ne, lookup_insert_eq. }
  split. { by rewrite lookup_insert_ne, lookup_insert_eq. }
  split. { by rewrite lookup_insert_eq. }
  split. { intros k H1 H2 H3. by rewrite !lookup_insert_ne. }
  done.
Qed.
Lemma split_slash_cons (s : string) : ∃ h t, lib.split_slash s = h :: t.
Proof.
  induction s as [|c r (h & t & IH)]; cbn; [by eexists _, _|].
  destruct (Ascii.eqb c _); [by eexists _, _|]. rewrite IH. by eexists _, _.
Qed.

Lemma concat_split_slash (s : string) :
  String.concat "/" (lib.split_slash s) = s.
Proof.
  induction s as [|c r IH]; [done|]. cbn [lib.split_slash].
  destruct (Ascii.eqb_spec c (Ascii.ascii_of_nat 47)) as [->|Hc].
  - destruct (split_slash_cons r) as (h & t & Hr). rewrite Hr in *.
    rewrite <- IH. reflexivity.
  - destruct (split_slash_cons r) as (h & t & Hr). rewrite Hr in *.
    rewrite <- IH. destruct t; reflexivity.
Qed.

Lemma split_slash_free (b : string) :
  slash_free b = true → lib.split_slash b = [b].
Proof.
  induction b as [|c b IH]; [done|]. cbn [slash_free lib.split_slash].
  intros [Hc Hb]%andb_true_iff.
  apply negb_true_iff in Hc.
  destruct (Ascii.eqb c _) eqn:E.
  - discriminate Hc.
  - by rewrite (IH Hb).
Qed.

Lemma split_slash_segment (b rest : string) :
  slash_free b = true →
  lib.split_slash (b +:+ "/" +:+ rest) = b :: lib.split_slash rest.
Proof.
  induction b as [|c b IH]; [done|].
  change (String c b +:+ "/" +:+ rest) with (String c (b +:+ "/" +:+ rest)).
  cbn [slash_free lib.split_slash].
  intros [Hc Hb]%andb_true_iff.
  apply negb_true_iff in Hc.
  destruct (Ascii.eqb c _) eqn:E.
  - discriminate Hc.
  - by rewrite (IH Hb).
Qed.

(** X4.  A successful [parseUrl] sets [key_bucket], [key_key] and
    [key_local] (the local name is the working directory, one fresh random
    string, a dash and the base name), leaves every other property and the
    three duration arrays as they were, and draws exactly one random
    string. *)
Theorem parseUrl_sets_three_properties (w : World)
    (workingDir key url pathname : string) (s : St) :
  key ≠ EmptyString →
  fields (msg s) !! (key +:+ "_file") = Some (JString url) →
  URL_pathname w url = Some pathname →
  prop (msg (lib.parseUrl w workingDir key s).2) (key +:+ "_bucket")
    = lib.at_index (lib.split_slash (p_dir (path_parse w pathname))) 1 ∧
  prop (msg (lib.parseUrl w workingDir key s).2) (key +:+ "_key")
    = JString (path_format w
        {| p_root := p_root (path_parse w pathname);
           p_dir := String.concat "/"
                      (drop 2 (lib.split_slash (p_dir (path_parse w pathname))));
           p_base := p_base (path_parse w pathname);
           p_ext := p_ext (path_parse w pathname);
           p_name := p_name (path_parse w pathname) |}) ∧
  prop (msg (lib.parseUrl w workingDir key s).2) (key +:+ "_local")
    = JString (workingDir +:+ "/" +:+ alphaNumMixed w (draws s) +:+ "-"
               +:+ p_base (path_parse w pathname)) ∧
  (∀ k, k ≠ key +:+ "_bucket" → k ≠ key +:+ "_key" → k ≠ key +:+ "_local" →
        fields (msg (lib.parseUrl w workingDir key s).2) !! k = fields (msg s) !! k) ∧
  draws (lib.parseUrl w workingDir key s).2 = S (draws s) ∧
  download_time (msg (lib.parseUrl w workingDir key s).2) = download_time (msg s) ∧
  upload_time (msg (lib.parseUrl w workingDir key s).2) = upload_time (msg s) ∧
  slicing_time (msg (lib.parseUrl w workingDir key s).2) = slicing_time (msg s).
Proof. apply parseUrl_success. Qed.

Lemma parseUrl_sets_three_properties_witness :
  fields (msg (holding Scenario.raw_ok)) !! ("stl" +:+ "_file")
    = Some (JString "https://s3.example.com/models/p3d/cube.stl") ∧
  URL_pathname Scenario.w_ok "https://s3.example.com/models/p3d/cube.stl"
    = Some "/models/p3d/cube.stl" ∧
  prop (msg (lib.parseUrl Scenario.w_ok "/working" "stl"
               (holding Scenario.raw_ok)).2) ("stl" +:+ "_local")
    = JString ("/working" +:+ "/"
               +:+ alphaNumMixed Scenario.w_ok (draws (holding Scenario.raw_ok))
               +:+ "-"
               +:+ p_base (path_parse Scenario.w_ok "/models/p3d/cube.stl")).
Proof.
  assert (H1 : fields (msg (holding Scenario.raw_ok)) !! ("stl" +:+ "_file")
    = Some (JString "https://s3.example.com/models/p3d/cube.stl"))
    by (vm_compute; reflexivity).
  assert (H2 : URL_pathname Scenario.w_ok
                 "https://s3.example.com/models/p3d/cube.stl"
    = Some "/models/p3d/cube.stl") by (vm_compute; reflexivity).
  split; [exact H1|]. split; [exact H2|].
  refine (proj1 (proj2 (proj2
    (parseUrl_sets_three_properties Scenario.w_ok "/working" "stl" _ _
       (holding Scenario.raw_ok) _ H1 H2)))).
  discriminate.
Defined.

(** X5.  When the directory of the URL path is [/bucket/dir...] (or just
    [/bucket]), [parseUrl] stores the first segment as the bucket and
    formats the key from the remaining directory, which it rebuilds
    unchanged by joining what it split. *)
Theorem parseUrl_bucket_is_first_segment (w : World)
    (workingDir key url pathname bucket keydir : string) (s : St) :
  key ≠ EmptyString →
  fields (msg s) !! (key +:+ "_file") = Some (JString url) →
  URL_pathname w url = Some pathname →
  slash_free bucket = true →
  p_dir (path_parse w pathname) = "/" +:+ bucket +:+ "/" +:+ keydir ∨
  (p_dir (path_parse w pathname) = "/" +:+ bucket ∧ keydir = EmptyString) →
  prop (msg (lib.parseUrl w workingDir key s).2) (key +:+ "_bucket")
    = JString bucket ∧
  prop (msg (lib.parseUrl w workingDir key s).2) (key +:+ "_key")
    = JString (path_format w
        {| p_root := p_root (path_parse w pathname);
           p_dir := keydir;
           p_base := p_base (path_parse w pathname);
           p_ext := p_ext (path_parse w pathname);
           p_name := p_name (path_parse w pathname) |}).
Proof.
  intros Hk Hl Hu Hb Hdir.
  destruct (parseUrl_success w workingDir key url pathname s Hk Hl Hu)
    as (H1 & H2 & _).
  rewrite H1, H2. clear H1 H2.
  destruct Hdir as [->|[-> ->]].
  - change ("/" +:+ bucket +:+ "/" +:+ keydir)
      with (String (Ascii.ascii_of_nat 47) (bucket +:+ "/" +:+ keydir)).
    cbn [lib.split_slash]. rewrite Ascii.eqb_refl.
    rewrite (split_slash_segment _ _ Hb).
    change (drop 2 (EmptyString :: bucket :: lib.split_slash keydir))
      with (lib.split_slash keydir).
    by rewrite concat_split_slash.
  - change ("/" +:+ bucket) with (String (Ascii.ascii_of_nat 47) bucket).
    cbn [lib.split_slash]. rewrite Ascii.eqb_refl.
    by rewrite (split_slash_free _ Hb).
Qed.

Lemma parseUrl_bucket_is_first_segment_witness :
  p_dir (path_parse Scenario.w_ok "/models/p3d/cube.stl")
    = "/" +:+ "models" +:+ "/" +:+ "p3d" ∧
  prop (msg (lib.parseUrl Scenario.w_ok "/working" "stl"
               (holding Scenario.raw_ok)).2) ("stl" +:+ "_bucket")
    = JString "models".
Proof.
  assert (Hd : p_dir (path_parse Scenario.w_ok "/models/p3d/cube.stl")
    = "/" +:+ "models" +:+ "/" +:+ "p3d") by (vm_compute; reflexivity).
  split; [exact Hd|].
  refine (proj1
    (parseUrl_bucket_is_first_segment Scenario.w_ok "/working" "stl"
       "https://s3.example.com/models/p3d/cube.stl" "/models/p3d/cube.stl"
       "models" "p3d" (holding Scenario.raw_ok) _ _ _ _ (or_introl Hd))).
  - discriminate.
  - vm_compute. reflexivity.
  - vm_compute. reflexivity.
  - reflexivity.
Defined.

(** X6.  A reference whose path has no directory at all (a bare file name)
    is not turned away: [parseUrl] returns normally, with the bucket
    [undefined] and the key formatted from an empty directory. *)
Theorem parseUrl_accepts_path_without_bucket (w : World)
    (workingDir key url pathname : string) (s : St) :
  key ≠ EmptyString →
  fields (msg s) !! (key +:+ "_file") = Some (JString url) →
  URL_pathname w url = Some pathname →
  slash_free (p_dir (path_parse w pathname)) = true →
  (lib.parseUrl w workingDir key s).1 = None ∧
  prop (msg (lib.parseUrl w workingDir key s).2) (key +:+ "_bucket")
    = JUndefined ∧
  prop (msg (lib.parseUrl w workingDir key s).2) (key +:+ "_key")
    = JString (path_format w
        {| p_root := p_root (path_parse w pathname);
           p_dir := EmptyString;
           p_base := p_base (path_parse w pathname);
           p_ext := p_ext (path_parse w pathname);
           p_name := p_name (path_parse w pathname) |}).
Proof.
  intros Hk Hl Hu Hd.
  destruct (parseUrl_success w workingDir key url pathname s Hk Hl Hu)
    as (H1 & H2 & _).
  rewrite H1, H2, (split_slash_free _ Hd). split; [|done].
  apply (proj1 (parseUrl_throws_iff_aux w workingDir key s)).
  split; [done|]. by exists url, pathname.
Qed.

Lemma parseUrl_accepts_path_without_bucket_witness :
  slash_free (p_dir (path_parse w_relative "cube.stl")) = true ∧
  (lib.parseUrl w_relative "/working" "stl" (holding raw_relative)).1 = None ∧
  prop (msg (lib.parseUrl w_relative "/working" "stl"
               (holding raw_relative)).2) ("stl" +:+ "_bucket")
    = JUndefined.
Proof.
  assert (Hd : slash_free (p_dir (path_parse w_relative "cube.stl")) = true)
    by (vm_compute; reflexivity).
  split; [exact Hd|].
  pose proof (parseUrl_accepts_path_without_bucket w_relative "/working" "stl"
    "cube.stl" "cube.stl" (holding raw_relative)) as H.
  destruct H as (H1 & H2 & _).
  - discriminate.
  - vm_compute. reflexivity.
  - reflexivity.
  - exact Hd.
  - split; [exact H1|exact H2].
Defined.

Lemma append_same_length (u1 u2 x y : string) :
  String.length u1 = String.length u2 → u1 +:+ x = u2 +:+ y → u1 = u2.
Proof.
  revert u2. induction u1 as [|c u1 IH]; intros [|c' u2]; cbn; try done.
  intros Hl H. injection Hl as Hl. injection H as -> H. f_equal. by apply IH.
Qed.

Lemma parseUrl_none (w : World) (wd key : string) (s s' : St) :
  lib.parseUrl w wd key s = (None, s') →
  ∃ base,
    prop (msg s') (key +:+ "_local")
      = JString (wd +:+ "/" +:+ alphaNumMixed w (draws s) +:+ "-" +:+ base) ∧
    (∀ k, k ≠ key +:+ "_bucket" → k ≠ key +:+ "_key" → k ≠ key +:+ "_local" →
          fields (msg s') !! k = fields (msg s) !! k) ∧
    draws s' = S (draws s).
Proof.
  intros H.
  assert (Hn : (lib.parseUrl w wd key s).1 = None) by (by rewrite H).
  apply (proj1 (parseUrl_throws_iff_aux w wd key s)) in Hn
    as (Hk & url & pathname & Hl & Hu).
  destruct (parseUrl_success w wd key url pathname s Hk Hl Hu)
    as (_ & _ & H3 & H4 & H5 & _).
  rewrite H in H3, H4, H5. cbn [snd] in H3, H4, H5. by eexists.
Qed.

(** The local names the three [parseUrl] calls of [processMessage] leave
    in the message. *)
Lemma parse_urls_locals (w : World) (s s' : St) :
  server.parse_urls w s = (None, s') →
  ∃ b1 b2 b3,
    prop (msg s') "stl_local"
      = JString (workDir w +:+ "/" +:+ alphaNumMixed w (draws s) +:+ "-" +:+ b1) ∧
    prop (msg s') "config_local"
      = JString (workDir w +:+ "/" +:+ alphaNumMixed w (S (draws s)) +:+ "-" +:+ b2) ∧
    prop (msg s') "gcode_local"
      = JString (workDir w +:+ "/" +:+ alphaNumMixed w (S (S (draws s))) +:+ "-"
                 +:+ b3).
Proof.
  unfold server.parse_urls. intros H.
  destruct (lib.parseUrl w (workDir w) "stl" s) as [[e|] s1] eqn:H1; [done|].
  destruct (lib.parseUrl w (workDir w) "config" s1) as [[e|] s2] eqn:H2; [done|].
  apply parseUrl_none in H1 as (b1 & L1 & F1 & D1).
  apply parseUrl_none in H2 as (b2 & L2 & F2 & D2).
  apply parseUrl_none in H as (b3 & L3 & F3 & D3).
  exists b1, b2, b3. unfold prop in *. cbn [String.append] in *.
  rewrite D2, D1 in L3. rewrite D1 in L2.
  split; [|split; [|exact L3]].
  - rewrite F3, F2 by done. exact L1.
  - rewrite F3 by done. exact L2.
Qed.

(** X7.  The three local file names of a tracked message are pairwise
    different as soon as the three random strings drawn for it have the
    same length and are pairwise different. *)
Theorem local_names_are_distinct (w : World) (raw : gmap string string)
    (s0 s3 : St) :
  tracked w raw s0 s3 →
  (∀ n, String.length (alphaNumMixed w n) = 20%nat) →
  alphaNumMixed w (draws s0) ≠ alphaNumMixed w (S (draws s0)) →
  alphaNumMixed w (draws s0) ≠ alphaNumMixed w (S (S (draws s0))) →
  alphaNumMixed w (S (draws s0)) ≠ alphaNumMixed w (S (S (draws s0))) →
  prop (msg s3) "stl_local" ≠ prop (msg s3) "config_local" ∧
  prop (msg s3) "stl_local" ≠ prop (msg s3) "gcode_local" ∧
  prop (msg s3) "config_local" ≠ prop (msg s3) "gcode_local".
Proof.
  intros (oid & s1 & _ & _ & Hparse & ->) Hlen H01 H02 H12.
  apply parse_urls_locals in Hparse as (b1 & b2 & b3 & L1 & L2 & L3).
  cbn [msg emit with_msg draws] in *. rewrite L1, L2, L3.
  assert (Hne : ∀ i j x y,
    alphaNumMixed w i ≠ alphaNumMixed w j →
    JString (workDir w +:+ "/" +:+ alphaNumMixed w i +:+ "-" +:+ x)
    ≠ JString (workDir w +:+ "/" +:+ alphaNumMixed w j +:+ "-" +:+ y)).
  { intros i j x y Hij Heq. injection Heq as Heq.
    apply append_cancel, append_cancel in Heq.
    apply append_same_length in Heq; [done|]. by rewrite !Hlen. }
  split; [by apply Hne|]. split; by apply Hne.
Qed.

Lemma local_names_are_distinct_witness :
  tracked Scenario.w_ok Scenario.raw_ok Scenario.s_init
    (chain_start Scenario.w_ok Scenario.raw_ok Scenario.s_init) ∧
  prop (msg (chain_start Scenario.w_ok Scenario.raw_ok Scenario.s_init))
    "stl_local"
  ≠ prop (msg (chain_start Scenario.w_ok Scenario.raw_ok Scenario.s_init))
      "config_local".
Proof.
  assert (Htr : tracked Scenario.w_ok Scenario.raw_ok Scenario.s_init
    (chain_start Scenario.w_ok Scenario.raw_ok Scenario.s_init)).
  { eexists _, _. split; [vm_compute; reflexivity|].
    split; [vm_compute; reflexivity|].
    split; [vm_compute; reflexivity|vm_compute; reflexivity]. }
  split; [exact Htr|].
  refine (proj1 (local_names_are_distinct Scenario.w_ok Scenario.raw_ok
                   Scenario.s_init _ Htr _ _ _ _)).
  - intros [|[|n]]; reflexivity.
  - discriminate.
  - discriminate.
  - discriminate.
Defined.

(** The three ways a call of [processMessage] goes. *)
Lemma processMessage_cases (w : World) (raw : gmap string string) (s0 : St) :
  (ObjectId w (prop (server.cloneDeep raw) "job_oid") = None ∧
   (∀ s3, ¬ tracked w raw s0 s3) ∧
   server.processMessage w raw s0
     = (server.Threw, with_msg (fun _ => server.cloneDeep raw) s0)) ∨
  (∃ text s1,
     (∀ s3, ¬ tracked w raw s0 s3) ∧ quiet s0 s1 ∧
     server.processMessage w raw s0
       = server.returned (server.reject_request w text s1)) ∨
  (∃ s3, tracked w raw s0 s3).
Proof.
  destruct (ObjectId w (prop (server.cloneDeep raw) "job_oid")) as [oid|] eqn:Hoid.
  2:{ left. split; [done|]. split.
      - intros s3 (oid & s1 & Ho & _). congruence.
      - unfold server.processMessage. by rewrite Hoid. }
  right.
  destruct (server.first_missing server.mustHave
              (set_prop "job_oid" oid (server.cloneDeep raw))) as [k|] eqn:Hmiss.
  { left. eexists _,
      (with_msg (fun _ => set_prop "job_oid" oid (server.cloneDeep raw)) s0).
    split; [|split].
    - intros s3 (oid' & s1 & Ho & Hm & _). congruence.
    - by repeat split.
    - unfold server.processMessage. rewrite Hoid. cbn [msg with_msg].
      rewrite Hmiss. reflexivity. }
  pose proof (parse_urls_quiet w
    (with_msg (fun _ => set_prop "job_oid" oid (server.cloneDeep raw)) s0)) as Hp.
  destruct (server.parse_urls w
    (with_msg (fun _ => set_prop "job_oid" oid (server.cloneDeep raw)) s0))
    as [[e|] s1] eqn:Hparse; cbn [snd] in Hp.
  - left. eexists _, s1. split; [|split].
    + intros s3 (oid' & s1' & Ho & Hm & Hpa & _).
      assert (oid' = oid) as -> by congruence. congruence.
    + exact Hp.
    + unfold server.processMessage. rewrite Hoid. cbn [msg with_msg].
      rewrite Hmiss, Hparse. reflexivity.
  - right. eexists. by exists oid, s1.
Qed.

(** What a request that is turned away leaves behind. *)
Lemma reject_request_shape (w : World) (text : string) (s : St) :
  (server.reject_request w text s).1 = Resolve tt ∧
  same_counts s (server.reject_request w text s).2 ∧
  totalSlicingTime (server.reject_request w text s).2 = totalSlicingTime s ∧
  ∃ oid op,
    status op = server.STATE_ERR ∧
    (trace (server.reject_request w text s).2
       = trace s ++ [EPrintJobUpdate oid op] ∨
     ∃ h, trace (server.reject_request w text s).2
            = trace s ++ [EPrintJobUpdate oid op; ERemoveMessage h]).
Proof.
  unfold server.reject_request, catch_, then_, server.queue_removeMessage.
  erewrite updateState_eq by reflexivity.
  destruct (write_settles _) as [[]|e]; cbn.
  - split; [done|]. split; [by repeat split|]. split; [done|].
    eexists _, _. split; [|right; eexists; rewrite <- app_assoc; reflexivity].
    reflexivity.
  - split; [done|]. split; [by repeat split|]. split; [done|].
    eexists _, _. split; [|left; reflexivity]. reflexivity.
Qed.

(** The handler of the final [.catch], whatever the error. *)
Lemma on_failure_any (w : World) (e : JsError) (s : St) :
  (server.on_failure w e s).1 = Resolve tt ∧
  jobs_counted (server.on_failure w e s).2 = jobs_counted s + 1 ∧
  jobsSucceeded (server.on_failure w e s).2 = jobsSucceeded s ∧
  ∃ tail : list Event,
    trace (server.on_failure w e s).2 = trace s ++ tail ∧
    length (dispositions tail) = 1%nat ∧
    forallb (fun c => negb (is_work c)) tail = true ∧
    forallb (fun c => negb (is_intake c)) tail = true.
Proof.
  unfold jobs_counted.
  destruct (String.eqb_spec (message e) "CANCELED") as [Hc|Hc];
    [|destruct (String.eqb_spec (message e) "SLICER") as [Hs|Hs]].
  - destruct (on_failure_canceled w e s Hc) as (H1 & H2 & H3 & H4 & H5 & H6 & _).
    split; [done|]. split; [lia|]. split; [done|].
    eexists. split; [exact H2|]. by repeat split.
  - destruct (on_failure_slicer w e s Hs) as (H1 & H2 & H3 & H4 & H5 & H6 & _).
    split; [done|]. split; [lia|]. split; [done|].
    eexists. split; [exact H2|]. by repeat split.
  - destruct (on_failure_other w e s Hc Hs) as (H1 & H2 & H3 & H4 & H5 & H6 & _).
    split; [done|]. split; [lia|]. split; [done|].
    eexists. split; [exact H2|]. by repeat split.
Qed.


(** A tracked run seen whole: the calls up to the end of the stages are
    stage calls; then either the success tail or the failure handler. *)
Lemma tracked_run (w : World) (raw : gmap string string) (s0 s3 : St) :
  tracked w raw s0 s3 →
  (server.processMessage w raw s0).1 = server.Returned (Resolve tt) ∧
  jobs_counted (server.processMessage w raw s0).2 = jobs_counted s0 + 1 ∧
  ∃ calls tail : list Event,
    trace (server.processMessage w raw s0).2 =
      trace s0 ++ [ETrackMessage (prop (msg s3) "handle"); ERunningProcessesInc 1]
        ++ calls ++ tail ∧
    Forall (fun c => is_stage_call c = true) calls ∧
    length (dispositions tail) = 1%nat.
Proof.
  intros Htr. unfold jobs_counted.
  destruct (stages w s3).1 as [[]|e] eqn:Hst.
  - destruct (success_run w raw s0 s3 Htr Hst)
      as (s4 & calls & _ & Hfin & (c1 & c2 & c3 & c4) & _ & Hq & Ht & _).
    destruct (finished_facts w s4) as (Htail & k1 & k2 & k3 & k4 & _).
    rewrite Hfin. cbn [fst snd]. split; [done|]. split; [lia|].
    exists calls, (success_tail w s4).
    split; [by rewrite Htail, Ht, <- !app_assoc|]. split; [done|]. reflexivity.
  - destruct (failure_run w raw s0 s3 e Htr Hst)
      as (Hfin & (c1 & c2 & c3 & c4) & _ & calls & Hq & Ht & _).
    destruct (on_failure_any w e (stages w s3).2)
      as (Hres & Hsum & _ & tail & Htail & Hd & _ & _).
    rewrite Hfin. cbn [fst snd]. rewrite Hres. split; [done|].
    split; [unfold jobs_counted in Hsum; lia|].
    exists calls, tail.
    split; [by rewrite Htail, Ht, <- !app_assoc|]. done.
Qed.




(** X10.  A message that is not tracked (a field reported missing, a URL
    that does not parse, an object id that cannot be built) causes at most
    the ERRORED write followed by at most one [removeMessage]: no download,
    no slicer run, no upload, no unlink, no stats upsert, no requeue; the
    job counters and the slicing-seconds total are left as they were. *)
Theorem untracked_message_touches_nothing (w : World)
    (raw : gmap string string) (s0 : St) :
  (∀ s3, ¬ tracked w raw s0 s3) →
  same_counts s0 (server.processMessage w raw s0).2 ∧
  totalSlicingTime (server.processMessage w raw s0).2 = totalSlicingTime s0 ∧
  (trace (server.processMessage w raw s0).2 = trace s0 ∨
   ∃ oid op,
     status op = server.STATE_ERR ∧
     (trace (server.processMessage w raw s0).2
        = trace s0 ++ [EPrintJobUpdate oid op] ∨
      ∃ h, trace (server.processMessage w raw s0).2
             = trace s0 ++ [EPrintJobUpdate oid op; ERemoveMessage h])).
Proof.
  intros Hnot.
  destruct (processMessage_cases w raw s0)
    as [(Hoid & _ & ->)|[(text & s1 & _ & Hq & ->)|(s3 & Htr)]].
  - cbn. split; [by repeat split|]. split; [done|]. by left.
  - destruct Hq as (Ht & (q1 & q2 & q3 & q4) & Htot).
    destruct (reject_request_shape w text s1)
      as (_ & (c1 & c2 & c3 & c4) & Hs & oid & op & Hst & Hshape).
    unfold server.returned. cbn [snd].
    split; [repeat split; congruence|]. split; [congruence|].
    right. exists oid, op. split; [done|]. rewrite <- Ht.
    destruct Hshape as [H|(h & H)]; [by left|right; by exists h].
  - by destruct (Hnot s3).
Qed.

Lemma untracked_message_touches_nothing_witness :
  (∀ s3, ¬ tracked Scenario.w_ok Scenario.raw_no_stl Scenario.s_init s3) ∧
  same_counts Scenario.s_init
    (server.processMessage Scenario.w_ok Scenario.raw_no_stl Scenario.s_init).2.
Proof.
  assert (Hnot : ∀ s3,
    ¬ tracked Scenario.w_ok Scenario.raw_no_stl Scenario.s_init s3).
  { intros s3 (oid & s1 & Hoid & Hmiss & _).
    vm_compute in Hoid. injection Hoid as <-.
    vm_compute in Hmiss. discriminate Hmiss. }
  split; [exact Hnot|].
  exact (proj1 (untracked_message_touches_nothing Scenario.w_ok
                  Scenario.raw_no_stl Scenario.s_init Hnot)).
Defined.

(** X11.  A tracked message is counted exactly once: the sum of the four
    job counters grows by one over the run, whatever the outcome. *)
Theorem tracked_message_counted_once (w : World) (raw : gmap string string)
    (s0 s3 : St) :
  tracked w raw s0 s3 →
  jobs_counted (server.processMessage w raw s0).2 = jobs_counted s0 + 1.
Proof.
  intros Htr. by destruct (tracked_run w raw s0 s3 Htr) as (_ & ? & _).
Qed.

Lemma tracked_message_counted_once_witness :
  tracked Scenario.w_slicer_fails Scenario.raw_ok Scenario.s_init
    (chain_start Scenario.w_slicer_fails Scenario.raw_ok Scenario.s_init) ∧
  jobs_counted
    (server.processMessage Scenario.w_slicer_fails Scenario.raw_ok
       Scenario.s_init).2 = jobs_counted Scenario.s_init + 1.
Proof.
  assert (Htr : tracked Scenario.w_slicer_fails Scenario.raw_ok Scenario.s_init
    (chain_start Scenario.w_slicer_fails Scenario.raw_ok Scenario.s_init)).
  { eexists _, _. split; [vm_compute; reflexivity|].
    split; [vm_compute; reflexivity|].
    split; [vm_compute; reflexivity|vm_compute; reflexivity]. }
  split; [exact Htr|].
  exact (tracked_message_counted_once Scenario.w_slicer_fails Scenario.raw_ok
           Scenario.s_init _ Htr).
Defined.















(** X16.  Whatever state code [updateState] is given it issues at most one
    write, to the document named by [job_oid], and the status it writes is
    one of the seven known codes: a code outside them is written as ERRORED
    with the label [Unknown].  The result-file reference is the message's
    [gcode_file] exactly when the status written is DONE, and the sentinel
    [waiting] otherwise. *)
Theorem updateState_writes_known_state (w : World) (state : Z)
    (err : server.ErrArg) (s : St) :
  trace (server.updateState w state err s).2 = trace s ∨
  ∃ op,
    trace (server.updateState w state err s).2
      = trace s ++ [EPrintJobUpdate (prop (msg s) "job_oid") op] ∧
    In (status op) known_states ∧
    (In state known_states → status op = state) ∧
    (¬ In state known_states →
     status op = server.STATE_ERR ∧ progress op = "Unknown") ∧
    jobID op = prop (msg s) "job_id" ∧
    gcode_file op = (if Z.eqb (status op) server.STATE_DONE
                     then prop (msg s) "gcode_file" else JString "waiting").
Proof.
  destruct (server.describe state err) as [[[st txt] det]|] eqn:Hd.
  2:{ left. unfold server.updateState. by rewrite Hd. }
  right. rewrite (updateState_eq w _ _ _ _ _ _ Hd). cbn [snd].
  eexists. split; [reflexivity|]. cbn [server.status_op status progress jobID gcode_file].
  unfold server.describe in Hd. unfold known_states.
  repeat match type of Hd with
  | context [Z.eqb state ?c] =>
      destruct (Z.eqb_spec state c) as [->|?]
  end;
  try (destruct (server.err_message err); [|discriminate Hd]);
  injection Hd as <- <- <-;
  (split; [cbn; tauto|]); (split; [cbn; intros; try done; intuition congruence|]);
  (split; [cbn; intros; try done; exfalso; tauto|]); done.
Qed.

Lemma has_prop_checked (raw : gmap string string) (oid : JsVal) (k : string) :
  has_prop (checked_message raw oid) k
  = if String.eqb k "job_oid" then true else bool_decide (is_Some (raw !! k)).
Proof.
  unfold has_prop, checked_message, set_prop, server.cloneDeep. cbn [fields].
  destruct (String.eqb_spec k "job_oid") as [->|Hk].
  - rewrite lookup_insert_eq. apply bool_decide_eq_true. by eexists.
  - rewrite lookup_insert_ne by done. rewrite lookup_fmap.
    apply bool_decide_ext. by rewrite fmap_is_Some.
Qed.

(** X17.  The loop over [mustHave] lets a message through exactly when the
    raw message holds [config_file], [gcode_file], [handle], [job_id] and
    [stl_file]; when it stops, it stops at the first of these, in that
    order, that the raw message lacks.  [job_oid], assigned before the loop
    runs, is never the field it reports. *)
Theorem validation_criterion (raw : gmap string string) (oid : JsVal) :
  (server.first_missing server.mustHave (checked_message raw oid) = None ↔
   is_Some (raw !! "config_file") ∧ is_Some (raw !! "gcode_file") ∧
   is_Some (raw !! "handle") ∧ is_Some (raw !! "job_id") ∧
   is_Some (raw !! "stl_file")) ∧
  (∀ k, server.first_missing server.mustHave (checked_message raw oid) = Some k →
        k ≠ "job_oid" ∧ raw !! k = None ∧
        ∃ earlier later,
          server.mustHave = earlier ++ k :: later ∧
          ∀ k', In k' earlier → k' = "job_oid" ∨ is_Some (raw !! k')).
Proof.
  unfold server.first_missing, server.mustHave.
  rewrite !has_prop_checked. cbn [String.eqb Ascii.eqb Bool.eqb].
  split.
  - destruct (raw !! "config_file") as [v1|];
    destruct (raw !! "gcode_file") as [v2|];
    destruct (raw !! "handle") as [v3|];
    destruct (raw !! "job_id") as [v4|];
    destruct (raw !! "stl_file") as [v5|]; cbn;
    (split; [intros H; try discriminate H; by repeat split|]);
    intros (A & B & C & D & E); try done;
    first [ by destruct A | by destruct B | by destruct C
          | by destruct D | by destruct E ].
  - intros k.
    destruct (raw !! "config_file") as [v1|] eqn:H1; cbn.
    2:{ intros [= <-]. split; [done|]. split; [done|].
        exists [], ["gcode_file"; "handle"; "job_id"; "job_oid"; "stl_file"].
        split; [done|]. by intros k' []. }
    destruct (raw !! "gcode_file") as [v2|] eqn:H2; cbn.
    2:{ intros [= <-]. split; [done|]. split; [done|].
        exists ["config_file"], ["handle"; "job_id"; "job_oid"; "stl_file"].
        split; [done|]. intros k' [<-|[]]. right. by rewrite H1. }
    destruct (raw !! "handle") as [v3|] eqn:H3; cbn.
    2:{ intros [= <-]. split; [done|]. split; [done|].
        exists ["config_file"; "gcode_file"], ["job_id"; "job_oid"; "stl_file"].
        split; [done|]. intros k' [<-|[<-|[]]]; right; by eexists. }
    destruct (raw !! "job_id") as [v4|] eqn:H4; cbn.
    2:{ intros [= <-]. split; [done|]. split; [done|].
        exists ["config_file"; "gcode_file"; "handle"], ["job_oid"; "stl_file"].
        split; [done|]. intros k' [<-|[<-|[<-|[]]]]; right; by eexists. }
    destruct (raw !! "stl_file") as [v5|] eqn:H5; cbn; [done|].
    intros [= <-]. split; [done|]. split; [done|].
    exists ["config_file"; "gcode_file"; "handle"; "job_id"; "job_oid"], [].
    split; [done|].
    intros k' [<-|[<-|[<-|[<-|[<-|[]]]]]];
      first [by left | right; by eexists].
Qed.

Lemma hex_loop_grows (f : nat) (n : N) (acc : string) :
  (String.length acc <= String.length (hex_loop f n acc))%nat.
Proof.
  revert n acc. induction f as [|f IH]; intros n acc; cbn [hex_loop]; [lia|].
  destruct (N.eqb _ _); [cbn; lia|].
  etrans; [|apply IH]. cbn. lia.
Qed.

Lemma hex_loop_at_most (f : nat) (k : nat) (n : N) (acc : string) :
  (n < 16 ^ N.of_nat (S k))%N →
  (String.length (hex_loop f n acc) <= String.length acc + S k)%nat.
Proof.
  revert k n acc. induction f as [|f IH]; intros k n acc Hn; cbn [hex_loop]; [lia|].
  destruct (N.eqb_spec (n / 16) 0) as [H0|H0]; [cbn; lia|].
  destruct k as [|k].
  { exfalso. apply H0. apply N.div_small. by rewrite N.pow_1_r in Hn. }
  etrans; [apply (IH k)|cbn; lia].
  apply N.Div0.div_lt_upper_bound.
  rewrite <- N.pow_succ_r', <- Nat2N.inj_succ. exact Hn.
Qed.

Lemma hex_loop_at_least (k : nat) (f : nat) (n : N) (acc : string) :
  (16 ^ N.of_nat k <= n)%N → (k < f)%nat →
  (String.length acc + S k <= String.length (hex_loop f n acc))%nat.
Proof.
  revert f n acc. induction k as [|k IH]; intros [|f] n acc Hn Hf; try lia;
    cbn [hex_loop].
  - destruct (N.eqb _ _); [cbn; lia|].
    etrans; [|apply hex_loop_grows]. cbn. lia.
  - assert (Hq : (16 ^ N.of_nat k <= n / 16)%N).
    { apply N.div_le_lower_bound; [lia|].
      rewrite <- N.pow_succ_r', <- Nat2N.inj_succ. exact Hn. }
    destruct (N.eqb_spec (n / 16) 0) as [H0|H0].
    { exfalso. pose proof (N.pow_nonzero 16 (N.of_nat k) ltac:(lia)). lia. }
    etrans; [|apply (IH f); [exact Hq|lia]]. cbn. lia.
Qed.

Lemma hex_fuel_enough (k : nat) (n : N) :
  (16 ^ N.of_nat k <= n)%N → (k < S (N.to_nat (N.log2 n)))%nat.
Proof.
  intros Hn.
  assert (H2 : (2 ^ (4 * N.of_nat k) <= n)%N).
  { by rewrite N.pow_mul_r. }
  assert (Hpos : (0 < n)%N).
  { pose proof (N.pow_nonzero 2 (4 * N.of_nat k) ltac:(lia)). lia. }
  apply N.log2_le_pow2 in H2; [|exact Hpos]. lia.
Qed.

Lemma toString16_length (n : Z) :
  0 <= n →
  (String.length (toString16 n) = 8%nat ↔ 268435456 <= n < 4294967296).
Proof.
  intros Hn. unfold toString16.
  destruct (Z.ltb_spec n 0) as [?|_]; [lia|].
  set (m := Z.to_N n).
  assert (Hm : n = Z.of_N m) by (subst m; lia).
  split.
  - intros Hlen.
    destruct (Z.lt_ge_cases n 268435456) as [Hlo|Hlo].
    { pose proof (hex_loop_at_most (S (N.to_nat (N.log2 m))) 6 m EmptyString) as H.
      cbn [String.length] in H. rewrite Hlen in H.
      assert (m < 16 ^ N.of_nat 7)%N by (change (16 ^ N.of_nat 7)%N with 268435456%N; lia).
      specialize (H ltac:(done)). lia. }
    destruct (Z.lt_ge_cases n 4294967296) as [Hhi|Hhi]; [lia|].
    assert (H8 : (16 ^ N.of_nat 8 <= m)%N)
      by (change (16 ^ N.of_nat 8)%N with 4294967296%N; lia).
    pose proof (hex_loop_at_least 8 (S (N.to_nat (N.log2 m))) m EmptyString H8
                  (hex_fuel_enough 8 m H8)) as H.
    cbn [String.length] in H. lia.
  - intros [Hlo Hhi].
    assert (H7 : (16 ^ N.of_nat 7 <= m)%N)
      by (change (16 ^ N.of_nat 7)%N with 268435456%N; lia).
    assert (H8 : (m < 16 ^ N.of_nat 8)%N)
      by (change (16 ^ N.of_nat 8)%N with 4294967296%N; lia).
    pose proof (hex_loop_at_least 7 (S (N.to_nat (N.log2 m))) m EmptyString H7
                  (hex_fuel_enough 7 m H7)) as Hl.
    pose proof (hex_loop_at_most (S (N.to_nat (N.log2 m))) 7 m EmptyString H8) as Hu.
    cbn [String.length] in Hl, Hu. lia.
Qed.

Lemma length_append (a b : string) :
  String.length (a +:+ b) = (String.length a + String.length b)%nat.
Proof.
  induction a as [|c a IH]; [done|].
  change (String c a +:+ b) with (String c (a +:+ b)).
  cbn [String.length]. by rewrite IH.
Qed.

(** X15.  The text [objectIdFromTimeStamp] hands to the object-id
    constructor is the seconds in hexadecimal followed by sixteen zeros.
    For a time at or after the epoch it has the 24 characters an object id
    needs exactly when the seconds have eight hexadecimal digits, that is
    from 0x10000000 (July 1978) up to 0xffffffff (February 2106); an
    invalid date gives 19 characters.  Called without argument it uses the
    start of the current hour, the seconds of the id the stats upserts are
    keyed by. *)
Theorem id_text_has_24_characters (w : World) (Date_parse : string -> option Z)
    (t : Z) (s : St) :
  0 <= t →
  (String.length (id_text (Some t)) = 24%nat ↔
   268435456 <= t / 1000 < 4294967296) ∧
  String.length (id_text None) = 19%nat ∧
  objectIdFromTimeStampOf w Date_parse TsNothing s
    = (ObjectId w
         (JString (toString16 (lib.objectIdFromTimeStamp w s).1
                   +:+ "0000000000000000")),
       (lib.objectIdFromTimeStamp w s).2) ∧
  objectIdFromTimeStampOf w Date_parse (TsDate (Some t)) s
    = (ObjectId w (JString (id_text (Some t))), s).
Proof.
  intros Ht. split; [|by repeat split].
  unfold id_text. rewrite length_append. cbn [String.length].
  assert (0 <= t / 1000) by (apply Z.div_pos; lia).
  rewrite <- (toString16_length (t / 1000)) by done. lia.
Qed.

Lemma id_text_has_24_characters_witness :
  0 <= 1509580800000 ∧
  (String.length (id_text (Some 1509580800000)) = 24%nat ↔
   268435456 <= 1509580800000 / 1000 < 4294967296).
Proof.
  split; [lia|].
  exact (proj1 (id_text_has_24_characters Scenario.w_ok (fun _ => None)
                  1509580800000 Scenario.s_init ltac:(lia))).
Defined.

Lemma stage_calls_no_intake (calls : list Event) :
  Forall (fun c => is_stage_call c = true) calls →
  List.filter is_intake calls = [].
Proof.
  induction 1 as [|c calls Hc _ IH]; [done|].
  cbn. rewrite IH. by destruct c.
Qed.

Lemma no_intake_filter (tail : list Event) :
  forallb (fun c => negb (is_intake c)) tail = true →
  List.filter is_intake tail = [].
Proof.
  induction tail as [|c tail IH]; [done|]. cbn.
  intros [Hc Ht]%andb_true_iff. apply negb_true_iff in Hc.
  rewrite Hc. by apply IH.
Qed.

(** X18.  A tracked message is taken in once: [trackMessage] and then
    [runningProcessesInc(1)] are the first two calls of the run, and no
    later call of the run tracks again or changes the count of running
    processes; in particular nothing in the pipeline lowers it. *)
Theorem tracked_message_taken_in_once (w : World) (raw : gmap string string)
    (s0 s3 : St) :
  tracked w raw s0 s3 →
  ∃ rest : list Event,
    trace (server.processMessage w raw s0).2 =
      trace s0 ++ [ETrackMessage (prop (msg s3) "handle"); ERunningProcessesInc 1]
        ++ rest ∧
    List.filter is_intake rest = [].
Proof.
  intros Htr.
  destruct (tracked_start w raw s0 s3 Htr) as (Ht0 & _ & _).
  rewrite (processMessage_tracked w raw s0 s3 Htr), pipeline_stages.
  unfold server.returned, catch_. rewrite stages_eq.
  pose proof (front_step w s3) as Hfront.
  destruct (front w s3) as [[[]|e] s4]; cbn [fst snd] in *;
    destruct Hfront as (_ & _ & calls & Tc & Hq & _).
  - destruct (write_settles _) as [[]|e]; cbn [snd].
    + destruct (finished_facts w s4) as (Htail & _).
      exists (calls ++ success_tail w s4).
      split; [by rewrite Htail, Tc, Ht0, <- !app_assoc|].
      rewrite List.filter_app, (stage_calls_no_intake _ Hq). reflexivity.
    + destruct (on_failure_any w e
        (emit (EPrintJobUpdate (prop (msg s4) "job_oid") (done_op (msg s4))) s4))
        as (_ & _ & _ & tail & Htail & _ & _ & Hi).
      exists (calls
              ++ [EPrintJobUpdate (prop (msg s4) "job_oid") (done_op (msg s4))]
              ++ tail).
      split; [rewrite Htail; cbn; by rewrite Tc, Ht0, <- !app_assoc|].
      rewrite !List.filter_app, (stage_calls_no_intake _ Hq),
        (no_intake_filter _ Hi). reflexivity.
  - destruct (on_failure_any w e s4) as (_ & _ & _ & tail & Htail & _ & _ & Hi).
    exists (calls ++ tail).
    split; [by rewrite Htail, Tc, Ht0, <- !app_assoc|].
    by rewrite List.filter_app, (stage_calls_no_intake _ Hq),
      (no_intake_filter _ Hi).
Qed.

Lemma tracked_message_taken_in_once_witness :
  tracked Scenario.w_record_gone Scenario.raw_ok Scenario.s_init
    (chain_start Scenario.w_record_gone Scenario.raw_ok Scenario.s_init) ∧
  ∃ rest : list Event,
    trace (server.processMessage Scenario.w_record_gone Scenario.raw_ok
             Scenario.s_init).2 =
      trace Scenario.s_init
        ++ [ETrackMessage
              (prop (msg (chain_start Scenario.w_record_gone Scenario.raw_ok
                            Scenario.s_init)) "handle");
            ERunningProcessesInc 1]
        ++ rest ∧
    List.filter is_intake rest = [].
Proof.
  assert (Htr : tracked Scenario.w_record_gone Scenario.raw_ok Scenario.s_init
    (chain_start Scenario.w_record_gone Scenario.raw_ok Scenario.s_init)).
  { eexists _, _. split; [vm_compute; reflexivity|].
    split; [vm_compute; reflexivity|].
    split; [vm_compute; reflexivity|vm_compute; reflexivity]. }
  split; [exact Htr|].
  exact (tracked_message_taken_in_once Scenario.w_record_gone Scenario.raw_ok
           Scenario.s_init _ Htr).
Defined.
